(** * authGenius-backend: the configuration object and the authentication lifecycle

    The only executable TypeScript of the repository is [src/config/index.ts],
    which builds the exported constant [Config] from [process.env]:

<<
    PORT: Number(process.env.PORT) || 3000,
    NODE_ENV: process.env.NODE_ENV || "development",
    MONGO_URI: process.env.MONGO_URI as string,
    ...
>>

    The first part of this file embeds the JavaScript fragment those
    expressions use (the values [undefined], numbers and strings, [ToBoolean],
    the operator [||], the conversion [Number(...)] with its
    [StringNumericLiteral] grammar and the rounding to binary64) and then
    [Config] itself, field by field.

    The second part models the authentication lifecycle (Secret Hasher,
    code generator, token issuer, Auth Service).  None of that is implemented
    in the repository: [plan.md] only lists the planned functions and the
    [IUser] interface.  Those definitions therefore follow the prose of the
    specification and are marked as such. *)

From Stdlib Require Import ZArith NArith String Ascii List Lia.
From Stdlib Require Import Floats.SpecFloat.
From stdpp Require Import base option gmap strings list.

Import ListNotations.

Local Open Scope Z_scope.

(** ** JavaScript values and numbers *)

Module JS.

(** A Number is an IEEE 754 binary64 value: [prec = 53], [emax = 1024]. *)
Definition prec : Z := 53.
Definition emax : Z := 1024.

Definition number : Type := spec_float.

Definition NaN : number := S754_nan.
Definition Infinity : number := S754_infinity false.
Definition pos_zero : number := S754_zero false.
Definition neg_zero : number := S754_zero true.

(** The Number value of the mathematical integer [z] (a numeric literal
    such as [3000] in the source text). *)
Definition lit (z : Z) : number := binary_normalize prec emax z 0 false.

(** The Number value of [m * 10 ^ e] for a positive [m]: round to nearest,
    ties to even.  A negative decimal exponent divides by a power of ten,
    and the quotient keeps the position of the remainder so that the
    rounding sees the exact value. *)
Definition round_decimal (m : positive) (e : Z) : number :=
  match e with
  | Z0 => binary_normalize prec emax (Zpos m) 0 false
  | Zpos p => binary_normalize prec emax (Zpos m * 10 ^ Zpos p) 0 false
  | Zneg p =>
      let '(q, e', l) :=
        SFdiv_core_binary prec emax (Zpos m) 0 (10 ^ Zpos p) 0 in
      binary_round_aux prec emax false q e' l
  end.

Definition mul (x y : number) : number := SFmul prec emax x y.
Definition neg (x : number) : number := SFopp x.
Definition leb (x y : number) : bool := SFleb x y.
Definition ltb (x y : number) : bool := SFltb x y.

(** The values that occur in [src/config/index.ts]. *)
Inductive value : Type :=
  | Undefined
  | Num (n : number)
  | Str (s : string).

(** [ToBoolean]: [undefined], [NaN], [+0], [-0] and the empty string are
    falsy, every other value of these three types is truthy. *)
Definition ToBoolean (v : value) : bool :=
  match v with
  | Undefined => false
  | Num (S754_zero _) => false
  | Num S754_nan => false
  | Num _ => true
  | Str EmptyString => false
  | Str _ => true
  end.

(** [a || b]: the left operand when it is truthy, else the right one. *)
Definition or (a b : value) : value := if ToBoolean a then a else b.

(** *** [StringToNumber] *)

(** Strings are byte strings; a code point beyond ASCII appears as its
    UTF-8 bytes.  [StrWhiteSpaceChar] is WhiteSpace (TAB, VT, FF, ZWNBSP and
    the category Zs) together with LineTerminator (LF, CR, LS, PS). *)
Definition bytes (l : list Z) : list ascii :=
  List.map (fun z => ascii_of_N (Z.to_N z)) l.

Definition StrWhiteSpaceChar : list (list ascii) :=
  List.map bytes
    ([ [9]; [10]; [11]; [12]; [13]; [32];
       [194; 160];                       (* U+00A0 *)
       [225; 154; 128] ]                 (* U+1680 *)
     ++ List.map (fun b => [226; 128; b])
          [128; 129; 130; 131; 132; 133; 134; 135; 136; 137; 138;
                                         (* U+2000 .. U+200A *)
           168; 169;                     (* U+2028, U+2029 *)
           175]                          (* U+202F *)
     ++ [ [226; 129; 159];               (* U+205F *)
          [227; 128; 128];               (* U+3000 *)
          [239; 187; 191] ]).            (* U+FEFF *)

Definition ascii_eqb (a b : ascii) : bool := Ascii.eqb a b.

Fixpoint strip_prefix (p l : list ascii) : option (list ascii) :=
  match p, l with
  | [], _ => Some l
  | a :: p', b :: l' => if ascii_eqb a b then strip_prefix p' l' else None
  | _ :: _, [] => None
  end.

(** The rest of [l] after one leading white space character, if any. *)
Definition strip_one (ws : list (list ascii)) (l : list ascii)
  : option (list ascii) :=
  List.fold_right
    (fun w acc => match strip_prefix w l with Some r => Some r | None => acc end)
    None ws.

Fixpoint strip_ws (fuel : nat) (ws : list (list ascii)) (l : list ascii)
  : list ascii :=
  match fuel with
  | O => l
  | S fuel' =>
      match strip_one ws l with
      | Some r => strip_ws fuel' ws r
      | None => l
      end
  end.

Definition trim (l : list ascii) : list ascii :=
  let l1 := strip_ws (List.length l) StrWhiteSpaceChar l in
  let r := List.rev l1 in
  List.rev (strip_ws (List.length r) (List.map (@List.rev ascii) StrWhiteSpaceChar) r).

(** Digits of radix 2, 8, 10 and 16. *)
Definition digit_value (c : ascii) : option Z :=
  let n := Z.of_N (N_of_ascii c) in
  if (48 <=? n) && (n <=? 57) then Some (n - 48)
  else if (97 <=? n) && (n <=? 102) then Some (n - 87)
  else if (65 <=? n) && (n <=? 70) then Some (n - 55)
  else None.

Definition digit_in (radix : Z) (c : ascii) : option Z :=
  match digit_value c with
  | Some d => if d <? radix then Some d else None
  | None => None
  end.

(** The longest prefix of digits of [l], and the rest. *)
Fixpoint span_digits (radix : Z) (l : list ascii) : list Z * list ascii :=
  match l with
  | [] => ([], [])
  | c :: l' =>
      match digit_in radix c with
      | Some d => let '(ds, r) := span_digits radix l' in (d :: ds, r)
      | None => ([], l)
      end
  end.

Definition digits_value (radix : Z) (ds : list Z) : Z :=
  List.fold_left (fun acc d => radix * acc + d) ds 0.

(** The Number value of a non-negative mathematical value
    [m * 10 ^ e]. *)
Definition of_decimal (m e : Z) : number :=
  match m with
  | Zpos p => round_decimal p e
  | _ => pos_zero
  end.

(** [ExponentPart_opt] at the end of a literal: nothing, or [e]/[E], an
    optional sign and at least one digit. *)
Definition parse_exponent (l : list ascii) : option Z :=
  match l with
  | [] => Some 0
  | c :: l1 =>
      if ascii_eqb c "e" || ascii_eqb c "E" then
        let '(sgn, l2) :=
          match l1 with
          | s :: l2 =>
              if ascii_eqb s "-" then (-1, l2)
              else if ascii_eqb s "+" then (1, l2)
              else (1, l1)
          | [] => (1, l1)
          end in
        match span_digits 10 l2 with
        | ((_ :: _) as ds, []) => Some (sgn * digits_value 10 ds)
        | _ => None
        end
      else None
  end.

(** [StrUnsignedDecimalLiteral]: [Infinity], [D.D?E?], [.DE?] or [DE?]. *)
Definition parse_unsigned_decimal (l : list ascii) : option number :=
  if String.eqb (string_of_list_ascii l) "Infinity" then Some Infinity
  else
    let '(ip, r1) := span_digits 10 l in
    let '(fp, r2) :=
      match r1 with
      | c :: r1' => if ascii_eqb c "." then span_digits 10 r1' else ([], r1)
      | [] => ([], r1)
      end in
    match ip, fp with
    | [], [] => None
    | _, _ =>
        match parse_exponent r2 with
        | Some ex =>
            Some (of_decimal (digits_value 10 (ip ++ fp))
                             (ex - Z.of_nat (List.length fp)))
        | None => None
        end
    end.

(** [StrDecimalLiteral]: an optional sign before the unsigned literal. *)
Definition parse_decimal (l : list ascii) : option number :=
  match l with
  | c :: l' =>
      if ascii_eqb c "-" then option_map neg (parse_unsigned_decimal l')
      else if ascii_eqb c "+" then parse_unsigned_decimal l'
      else parse_unsigned_decimal l
  | [] => None
  end.

(** [NonDecimalIntegerLiteral]: [0b], [0o] or [0x] (either case) and at
    least one digit of that radix; no sign. *)
Definition parse_non_decimal (l : list ascii) : option number :=
  match l with
  | z :: p :: l' =>
      if ascii_eqb z "0" then
        let radix :=
          if ascii_eqb p "x" || ascii_eqb p "X" then Some 16
          else if ascii_eqb p "o" || ascii_eqb p "O" then Some 8
          else if ascii_eqb p "b" || ascii_eqb p "B" then Some 2
          else None in
        match radix with
        | Some r =>
            match span_digits r l' with
            | ((_ :: _) as ds, []) => Some (lit (digits_value r ds))
            | _ => None
            end
        | None => None
        end
      else None
  | _ => None
  end.

(** [StringToNumber]: white space is trimmed; the empty rest is [+0]; a
    rest that is no [StrNumericLiteral] is [NaN]. *)
Definition StringToNumber (s : string) : number :=
  match trim (list_ascii_of_string s) with
  | [] => pos_zero
  | l =>
      match parse_non_decimal l with
      | Some n => n
      | None =>
          match parse_decimal l with
          | Some n => n
          | None => NaN
          end
      end
  end.

(** [Number(v)], that is [ToNumber] on these three types. *)
Definition Number (v : value) : number :=
  match v with
  | Undefined => NaN
  | Num n => n
  | Str s => StringToNumber s
  end.

End JS.

(** ** The configuration object of [src/config/index.ts] *)

(** [process.env]: a map from variable names to strings. *)
Abbreviation Env := (gmap string string).

(** [dotenv.config()] is a call into the dotenv package, which is a
    dependency and not a source file of the repository.  What the call does
    to [process.env] depends on the version of the package, on its options
    (some of which it reads from the environment) and on the files it
    finds, and the call may throw.  Its effect is therefore a parameter of
    the module body below: a function from the [process.env] before the
    call to the [process.env] after it, or to [None] when the call throws. *)
Definition DotenvEffect : Type := Env -> option Env.

(** Three effects the call can have, used as examples only.  With a [.env]
    file whose entries are [parsed], the entries are merged into
    [process.env]; a variable that is already set keeps its value, unless
    the package is told to override, and then the file's value replaces
    it. *)
Definition dotenv_merge (override : bool) (parsed : Env) : DotenvEffect :=
  fun env => Some (if override then parsed ∪ env else env ∪ parsed).

(** Without a [.env] file the call leaves [process.env] as it is. *)
Definition dotenv_no_file : DotenvEffect := fun env => Some env.

(** The call throws. *)
Definition dotenv_throws : DotenvEffect := fun _ => None.

(** [process.env.NAME]: the string, or [undefined] when the variable is
    absent. *)
Definition process_env (env : Env) (name : string) : JS.value :=
  match env !! name with
  | Some s => JS.Str s
  | None => JS.Undefined
  end.

(** [e as string] is a compile-time assertion; no code is emitted for it. *)
Definition as_string (v : JS.value) : JS.value := v.

Record ConfigObject : Type := {
  PORT : JS.value;
  NODE_ENV : JS.value;
  MONGO_URI : JS.value;
  JWT_ACCESS_TOKEN : JS.value;
  JWT_REFRESH_TOKEN : JS.value;
  JWT_ACCESS_EXPIRY : JS.value;
  JWT_REFRESH_EXPIRY : JS.value;
  EMAIL_HOST : JS.value;
  EMAIL_PORT : JS.value;
  EMAIL_USER : JS.value;
  EMAIL_PASS : JS.value;
  CLIENT_URL : JS.value;
  BCRYPT_SALT_ROUND : JS.value;
  RATE_LIMIT_WINDOW_MS : JS.value;
  RATE_LIMIT_MAX_REQUESTS : JS.value
}.

(** [Number(process.env.NAME) || dflt] *)
Definition number_or (env : Env) (name : string) (dflt : JS.number) : JS.value :=
  JS.or (JS.Num (JS.Number (process_env env name))) (JS.Num dflt).

(** [process.env.NAME || dflt] *)
Definition string_or (env : Env) (name : string) (dflt : string) : JS.value :=
  JS.or (process_env env name) (JS.Str dflt).

(** The object literal, evaluated on the [process.env] it reads. *)
Definition Config (env : Env) : ConfigObject := {|
  PORT := number_or env "PORT" (JS.lit 3000);
  NODE_ENV := string_or env "NODE_ENV" "development";

  MONGO_URI := as_string (process_env env "MONGO_URI");

  JWT_ACCESS_TOKEN := as_string (process_env env "JWT_ACCESS_TOKEN");
  JWT_REFRESH_TOKEN := as_string (process_env env "JWT_REFRESH_TOKEN");
  JWT_ACCESS_EXPIRY := string_or env "JWT_ACCESS_EXPIRY" "15m";
  JWT_REFRESH_EXPIRY := string_or env "JWT_REFRESH_EXPIRY" "7d";

  EMAIL_HOST := as_string (process_env env "EMAIL_HOST");
  EMAIL_PORT := number_or env "EMAIL_PORT" (JS.lit 587);
  EMAIL_USER := as_string (process_env env "EMAIL_USER");
  EMAIL_PASS := as_string (process_env env "EMAIL_PASS");

  CLIENT_URL := string_or env "CLIENT_URL" "http://localhost:5173";

  BCRYPT_SALT_ROUND := number_or env "BCRYPT_SALT_ROUND" (JS.lit 12);

  RATE_LIMIT_WINDOW_MS :=
    number_or env "RATE_LIMIT_WINDOW_MS"
      (JS.mul (JS.mul (JS.lit 15) (JS.lit 60)) (JS.lit 1000));
  RATE_LIMIT_MAX_REQUESTS := number_or env "RATE_LIMIT_MAX_REQUESTS" (JS.lit 100)
|}.

(** The module body: [dotenv.config()] first, then the object literal on
    the [process.env] the call has left.  When the call throws, the module
    exports nothing. *)
Definition load (dotenv_config : DotenvEffect) (env : Env) : option ConfigObject :=
  match dotenv_config env with
  | Some populated => Some (Config populated)
  | None => None
  end.

(** The environment variables the object literal reads. *)
Definition config_variables : list string :=
  [ "PORT"; "NODE_ENV"; "MONGO_URI"; "JWT_ACCESS_TOKEN"; "JWT_REFRESH_TOKEN";
    "JWT_ACCESS_EXPIRY"; "JWT_REFRESH_EXPIRY"; "EMAIL_HOST"; "EMAIL_PORT";
    "EMAIL_USER"; "EMAIL_PASS"; "CLIENT_URL"; "BCRYPT_SALT_ROUND";
    "RATE_LIMIT_WINDOW_MS"; "RATE_LIMIT_MAX_REQUESTS" ]%string.

(** The numeric fields: variable name, projection and built-in default. *)
Definition numeric_fields : list (string * (ConfigObject -> JS.value) * Z) :=
  [ ("PORT", PORT, 3000);
    ("EMAIL_PORT", EMAIL_PORT, 587);
    ("BCRYPT_SALT_ROUND", BCRYPT_SALT_ROUND, 12);
    ("RATE_LIMIT_WINDOW_MS", RATE_LIMIT_WINDOW_MS, 900000);
    ("RATE_LIMIT_MAX_REQUESTS", RATE_LIMIT_MAX_REQUESTS, 100) ]%string.

(** The fields read with [as string]: variable name and projection. *)
Definition cast_fields : list (string * (ConfigObject -> JS.value)) :=
  [ ("MONGO_URI", MONGO_URI);
    ("JWT_ACCESS_TOKEN", JWT_ACCESS_TOKEN);
    ("JWT_REFRESH_TOKEN", JWT_REFRESH_TOKEN);
    ("EMAIL_HOST", EMAIL_HOST);
    ("EMAIL_USER", EMAIL_USER);
    ("EMAIL_PASS", EMAIL_PASS) ]%string.

(** A string is numeric when [Number] does not turn it into [NaN]. *)
Definition numeric_string (s : string) : bool :=
  match JS.StringToNumber s with
  | S754_nan => false
  | _ => true
  end.

(** A Number is zero when it is [+0] or [-0]. *)
Definition is_zero (n : JS.number) : bool :=
  match n with
  | S754_zero _ => true
  | _ => false
  end.

Definition is_nan (n : JS.number) : bool :=
  match n with
  | S754_nan => true
  | _ => false
  end.

(** Every field of the object literal with the variable it reads. *)
Definition config_fields : list (string * (ConfigObject -> JS.value)) :=
  [ ("PORT", PORT);
    ("NODE_ENV", NODE_ENV);
    ("MONGO_URI", MONGO_URI);
    ("JWT_ACCESS_TOKEN", JWT_ACCESS_TOKEN);
    ("JWT_REFRESH_TOKEN", JWT_REFRESH_TOKEN);
    ("JWT_ACCESS_EXPIRY", JWT_ACCESS_EXPIRY);
    ("JWT_REFRESH_EXPIRY", JWT_REFRESH_EXPIRY);
    ("EMAIL_HOST", EMAIL_HOST);
    ("EMAIL_PORT", EMAIL_PORT);
    ("EMAIL_USER", EMAIL_USER);
    ("EMAIL_PASS", EMAIL_PASS);
    ("CLIENT_URL", CLIENT_URL);
    ("BCRYPT_SALT_ROUND", BCRYPT_SALT_ROUND);
    ("RATE_LIMIT_WINDOW_MS", RATE_LIMIT_WINDOW_MS);
    ("RATE_LIMIT_MAX_REQUESTS", RATE_LIMIT_MAX_REQUESTS) ]%string.

(** The fields written [process.env.NAME || "default"]: variable name,
    projection and default. *)
Definition string_fields : list (string * (ConfigObject -> JS.value) * string) :=
  [ ("NODE_ENV", NODE_ENV, "development");
    ("JWT_ACCESS_EXPIRY", JWT_ACCESS_EXPIRY, "15m");
    ("JWT_REFRESH_EXPIRY", JWT_REFRESH_EXPIRY, "7d");
    ("CLIENT_URL", CLIENT_URL, "http://localhost:5173") ]%string.

(** The defaults of the object literal, each written the way an
    environment variable would carry it. *)
Definition default_strings : list (string * string) :=
  [ ("PORT", "3000");
    ("NODE_ENV", "development");
    ("JWT_ACCESS_EXPIRY", "15m");
    ("JWT_REFRESH_EXPIRY", "7d");
    ("EMAIL_PORT", "587");
    ("CLIENT_URL", "http://localhost:5173");
    ("BCRYPT_SALT_ROUND", "12");
    ("RATE_LIMIT_WINDOW_MS", "900000");
    ("RATE_LIMIT_MAX_REQUESTS", "100") ]%string.

(** The characters [0] to [9]. *)
Definition is_decimal_digit (c : ascii) : bool :=
  let n := Z.of_N (N_of_ascii c) in (48 <=? n) && (n <=? 57).

(** A non-empty string of decimal digits, such as ["8080"] or ["0080"]. *)
Definition decimal_digits (s : string) : bool :=
  match list_ascii_of_string s with
  | [] => false
  | l => List.forallb is_decimal_digit l
  end.

(** The integer a string of decimal digits denotes. *)
Definition decimal_value (s : string) : Z :=
  JS.digits_value 10
    (List.map (fun c => Z.of_N (N_of_ascii c) - 48) (list_ascii_of_string s)).

(** One white space character of [StrWhiteSpaceChar], as a string. *)
Definition white_space (s : string) : bool :=
  List.existsb (fun w => String.eqb (string_of_list_ascii w) s)
               JS.StrWhiteSpaceChar.

(** A continuation byte of UTF-8. *)
Definition continuation (c : ascii) : bool :=
  (128 <=? Z.of_N (N_of_ascii c)) && (Z.of_N (N_of_ascii c) <=? 191).

(** ** The authentication lifecycle *)

Module Auth.

(** Modelled from the spec: the clock collaborator [now()] is missing; a
    timestamp is an integer number of time units. *)
Definition Time : Type := Z.

(** Modelled from the spec: the error taxonomy of section 7; no source
    file declares it. *)
Inductive Error : Type :=
  | ValidationError
  | DuplicateEmail
  | NotFound
  | InvalidCredentials
  | NotVerified
  | CodeExpired
  | CodeMismatch
  | InvalidSignature
  | ExpiredToken
  | StoreUnavailable.

(** Modelled from the spec: the outcome of an operation, a value or one of
    the errors above; no source file declares it. *)
Inductive result (A : Type) : Type :=
  | Ok (a : A)
  | Err (e : Error).
Arguments Ok {A} a.
Arguments Err {A} e.

(** *** Constant-time comparison *)

(** Modelled from the spec: the comparison of section 4.3 ("must be
    constant-time") is missing.  It looks at every byte pair and
    accumulates the differences, with no early exit. *)
Fixpoint ct_diff (acc : N) (a b : list ascii) : N :=
  match a, b with
  | x :: a', y :: b' =>
      ct_diff (N.lor acc (N.lxor (N_of_ascii x) (N_of_ascii y))) a' b'
  | _, _ => acc
  end.

(** Modelled from the spec: equality of two codes or digests by the
    missing constant-time comparison; strings of different lengths
    differ. *)
Definition ct_eqb (a b : string) : bool :=
  let la := list_ascii_of_string a in
  let lb := list_ascii_of_string b in
  Nat.eqb (List.length la) (List.length lb) && N.eqb (ct_diff 0%N la lb) 0%N.

(** *** Verification/Reset Code Generator (section 4.3) *)

(** Modelled from the spec: the three answers of the missing [check]. *)
Inductive CheckResult : Type := valid | expired | mismatch.

(** Modelled from the spec: the missing [issue() -> (code, expiresAt)].
    The random code drawn by this invocation and the clock reading are
    arguments; the expiry is absolute, [window] after [now]. *)
Definition issue (window : Z) (now : Time) (random_code : string)
  : string * Time :=
  (random_code, now + window).

(** Modelled from the spec: the missing
    [check(storedCode, storedExpiry, suppliedCode, now)].  A check after
    the expiry timestamp is [expired] whatever the supplied code; otherwise
    the codes are compared. *)
Definition check (storedCode : string) (storedExpiry : Time)
    (suppliedCode : string) (now : Time) : CheckResult :=
  if storedExpiry <? now then expired
  else if ct_eqb storedCode suppliedCode then valid
  else mismatch.

(** *** Data model (section 3) *)

(** Modelled from the spec: the stored hash of the missing Secret Hasher,
    "a hash string encoding algorithm cost and random salt", as its three
    parts. *)
Record StoredHash : Type := {
  hash_cost : nat;
  hash_salt : string;
  hash_digest : string
}.

(** Modelled from the spec: the user record of section 3 (the [IUser]
    interface of plan.md is only planned). *)
Record User : Type := {
  user_id : nat;
  user_name : string;
  user_email : string;
  user_secret : StoredHash;
  user_verified : bool;
  user_verification : option (string * Time);
  user_reset : option (string * Time)
}.

(** Modelled from the spec: a token of the missing Token Issuer, a signed
    claim set binding a user identifier and an expiry. *)
Record Token : Type := {
  token_user : nat;
  token_expiry : Time;
  token_signature : string
}.

(** Modelled from the spec: the two token classes of section 4.2. *)
Inductive TokenClass : Type := access | refresh.

(** Modelled from the spec: a message handed to the missing email
    collaborator [send(to, subject, body)]; the body carries the code. *)
Record Mail : Type := {
  mail_to : string;
  mail_subject : string;
  mail_code : string
}.

(** Modelled from the spec: the credential store, the id counter of its
    [create] and the messages handed to the email collaborator so far. *)
Record World : Type := {
  store : list User;
  next_id : nat;
  outbox : list Mail
}.

(** Modelled from the spec: the states of the per-user state machine of
    section 4.4. *)
Inductive UserState : Type :=
  | Unregistered
  | PendingVerification
  | Verified
  | PasswordResetPending.

(** Modelled from the spec: the success responses of the missing Auth
    Service operations. *)
Inductive Response : Type :=
  | Registered
  | EmailVerified
  | LoggedIn (access_token refresh_token : Token)
  | Accepted
  | PasswordReset
  | LoggedOut.

(** Modelled from the spec: the explicitly constructed configuration
    object of section 9 that the missing constructors would receive. *)
Record Settings : Type := {
  access_secret : string;
  refresh_secret : string;
  access_lifetime : Z;
  refresh_lifetime : Z;
  code_window : Z;
  cost_factor : nat
}.

(** *** Credential store *)

(** Modelled from the spec: emails are unique case-insensitively; the
    missing store compares them after lowering ASCII letters. *)
Definition lower_ascii (c : ascii) : ascii :=
  let n := N_of_ascii c in
  if (65 <=? n)%N && (n <=? 90)%N then ascii_of_N (n + 32) else c.

(** Modelled from the spec: the case-insensitive key of an email. *)
Fixpoint normalise (s : string) : string :=
  match s with
  | EmptyString => EmptyString
  | String c s' => String (lower_ascii c) (normalise s')
  end.

(** Modelled from the spec: the store capability [findByEmail]. *)
Definition findByEmail (email : string) (users : list User) : option User :=
  List.find (fun u => String.eqb (normalise (user_email u)) (normalise email))
            users.

(** Modelled from the spec: the store capability [findById]. *)
Definition findById (id : nat) (users : list User) : option User :=
  List.find (fun u => Nat.eqb (user_id u) id) users.

(** Modelled from the spec: the store capability [updateById]. *)
Definition updateById (id : nat) (f : User -> User) (users : list User)
  : list User :=
  List.map (fun u => if Nat.eqb (user_id u) id then f u else u) users.

(** Modelled from the spec: the store capability [create]. *)
Definition create (u : User) (users : list User) : list User := users ++ [u].

(** Modelled from the spec: the state of the record of an email in the
    state machine of section 4.4. *)
Definition state_of (email : string) (w : World) : UserState :=
  match findByEmail email (store w) with
  | None => Unregistered
  | Some u =>
      if user_verified u then
        match user_reset u with
        | Some _ => PasswordResetPending
        | None => Verified
        end
      else PendingVerification
  end.

Section Lifecycle.

(** Modelled from the spec: the one-way transform of the missing Secret
    Hasher, applied to cost, salt and plaintext. *)
Variable digest : nat -> string -> string -> string.

(** Modelled from the spec: the signature primitive of the missing Token
    Issuer, applied to a secret and a claim set. *)
Variable sign : string -> nat * Time -> string.

(** Modelled from the spec: the input validation that rejects malformed
    input before the store is touched (section 7). *)
Variable validate : string -> string -> string -> bool.

Variable cfg : Settings.

(** *** Secret Hasher (section 4.1) *)

(** Modelled from the spec: the missing hashing operation.  The salt is the
    random value drawn by this invocation; an empty plaintext is rejected
    before hashing. *)
Definition hash (salt plaintext : string) : result StoredHash :=
  match plaintext with
  | EmptyString => Err ValidationError
  | _ =>
      Ok {| hash_cost := cost_factor cfg;
            hash_salt := salt;
            hash_digest := digest (cost_factor cfg) salt plaintext |}
  end.

(** Modelled from the spec: the missing verification operation; it
    recomputes the digest under the cost and salt the stored hash encodes
    and compares, and never reconstructs the plaintext. *)
Definition verify (plaintext : string) (h : StoredHash) : bool :=
  ct_eqb (digest (hash_cost h) (hash_salt h) plaintext) (hash_digest h).

(** *** Token Issuer (section 4.2) *)

(** Modelled from the spec: the signing secret of a token class. *)
Definition secret_of (c : TokenClass) : string :=
  match c with
  | access => access_secret cfg
  | refresh => refresh_secret cfg
  end.

(** Modelled from the spec: the lifetime of a token class. *)
Definition lifetime_of (c : TokenClass) : Z :=
  match c with
  | access => access_lifetime cfg
  | refresh => refresh_lifetime cfg
  end.

(** Modelled from the spec: the missing [issueAccessToken] and
    [issueRefreshToken], as one function of the class. *)
Definition issueToken (c : TokenClass) (now : Time) (userId : nat) : Token :=
  let expiry := now + lifetime_of c in
  {| token_user := userId;
     token_expiry := expiry;
     token_signature := sign (secret_of c) (userId, expiry) |}.

(** Modelled from the spec: the missing [verify(token, class) -> userId],
    failing with [InvalidSignature] or [ExpiredToken]. *)
Definition verifyToken (c : TokenClass) (now : Time) (t : Token) : result nat :=
  if ct_eqb (sign (secret_of c) (token_user t, token_expiry t))
            (token_signature t)
  then if token_expiry t <? now then Err ExpiredToken else Ok (token_user t)
  else Err InvalidSignature.

(** *** Auth Service (section 4.4) *)

(** Modelled from the spec: the missing [register(name, email, password)].
    [salt] and [random_code] are the random values this invocation
    draws. *)
Definition register (now : Time) (salt random_code : string)
    (name email password : string) (w : World) : result Response * World :=
  if negb (validate name email password) then (Err ValidationError, w)
  else
    match findByEmail email (store w) with
    | Some _ => (Err DuplicateEmail, w)
    | None =>
        match hash salt password with
        | Err e => (Err e, w)
        | Ok h =>
            let '(code, expiresAt) := issue (code_window cfg) now random_code in
            let u := {| user_id := next_id w;
                        user_name := name;
                        user_email := email;
                        user_secret := h;
                        user_verified := false;
                        user_verification := Some (code, expiresAt);
                        user_reset := None |} in
            (Ok Registered,
             {| store := create u (store w);
                next_id := S (next_id w);
                outbox := outbox w ++
                  [ {| mail_to := email;
                       mail_subject := "verify-email";
                       mail_code := code |} ] |})
        end
    end.

(** Modelled from the spec: the record after a successful verification:
    flag set, code cleared. *)
Definition mark_verified (u : User) : User :=
  {| user_id := user_id u;
     user_name := user_name u;
     user_email := user_email u;
     user_secret := user_secret u;
     user_verified := true;
     user_verification := None;
     user_reset := user_reset u |}.

(** Modelled from the spec: the missing [verifyEmail(email, code)]. *)
Definition verifyEmail (now : Time) (email code : string) (w : World)
  : result Response * World :=
  match findByEmail email (store w) with
  | None => (Err NotFound, w)
  | Some u =>
      match user_verification u with
      | None => (Err CodeMismatch, w)
      | Some (storedCode, storedExpiry) =>
          match check storedCode storedExpiry code now with
          | expired => (Err CodeExpired, w)
          | mismatch => (Err CodeMismatch, w)
          | valid =>
              (Ok EmailVerified,
               {| store := updateById (user_id u) mark_verified (store w);
                  next_id := next_id w;
                  outbox := outbox w |})
          end
      end
  end.

(** Modelled from the spec: the missing [login(email, password)]; an
    unknown email and a wrong password give the same error. *)
Definition login (now : Time) (email password : string) (w : World)
  : result Response * World :=
  match findByEmail email (store w) with
  | None => (Err InvalidCredentials, w)
  | Some u =>
      if negb (user_verified u) then (Err NotVerified, w)
      else if verify password (user_secret u) then
        (Ok (LoggedIn (issueToken access now (user_id u))
                      (issueToken refresh now (user_id u))), w)
      else (Err InvalidCredentials, w)
  end.

(** Modelled from the spec: the record with a reset code set. *)
Definition with_reset (r : option (string * Time)) (u : User) : User :=
  {| user_id := user_id u;
     user_name := user_name u;
     user_email := user_email u;
     user_secret := user_secret u;
     user_verified := user_verified u;
     user_verification := user_verification u;
     user_reset := r |}.

(** Modelled from the spec: the missing [forgotPassword(email)]: the
    response is the same in every case; a reset code is issued and sent
    only for an existing, verified account. *)
Definition forgotPassword (now : Time) (random_code : string)
    (email : string) (w : World) : result Response * World :=
  match findByEmail email (store w) with
  | Some u =>
      if user_verified u then
        let '(code, expiresAt) := issue (code_window cfg) now random_code in
        (Ok Accepted,
         {| store :=
              updateById (user_id u) (with_reset (Some (code, expiresAt)))
                         (store w);
            next_id := next_id w;
            outbox := outbox w ++
              [ {| mail_to := user_email u;
                   mail_subject := "reset-password";
                   mail_code := code |} ] |})
      else (Ok Accepted, w)
  | None => (Ok Accepted, w)
  end.

(** Modelled from the spec: the record after a successful reset: new
    secret stored, reset code cleared. *)
Definition with_secret (h : StoredHash) (u : User) : User :=
  {| user_id := user_id u;
     user_name := user_name u;
     user_email := user_email u;
     user_secret := h;
     user_verified := user_verified u;
     user_verification := user_verification u;
     user_reset := None |}.

(** Modelled from the spec: the missing
    [resetPassword(email, code, newPassword)]. *)
Definition resetPassword (now : Time) (salt : string)
    (email code newPassword : string) (w : World) : result Response * World :=
  match findByEmail email (store w) with
  | None => (Err CodeMismatch, w)
  | Some u =>
      match user_reset u with
      | None => (Err CodeMismatch, w)
      | Some (storedCode, storedExpiry) =>
          match check storedCode storedExpiry code now with
          | expired => (Err CodeExpired, w)
          | mismatch => (Err CodeMismatch, w)
          | valid =>
              match hash salt newPassword with
              | Err e => (Err e, w)
              | Ok h =>
                  (Ok PasswordReset,
                   {| store := updateById (user_id u) (with_secret h) (store w);
                      next_id := next_id w;
                      outbox := outbox w |})
              end
          end
      end
  end.

(** Modelled from the spec: [logout()], a no-op on the server in the
    stateless-token design. *)
Definition logout (w : World) : result Response * World := (Ok LoggedOut, w).

End Lifecycle.

End Auth.

(** ** Example environments *)

(** Both secrets set to the same string. *)
Definition env_shared_secret : Env :=
  <["JWT_ACCESS_TOKEN" := "s3cret"]> (<["JWT_REFRESH_TOKEN" := "s3cret"]> ∅).

(** [JWT_ACCESS_EXPIRY=] : the variable is set, to the empty string. *)
Definition env_empty_expiry : Env := <["JWT_ACCESS_EXPIRY" := ""]> ∅.

(** A cost factor below ten. *)
Definition env_four_rounds : Env := <["BCRYPT_SALT_ROUND" := "4"]> ∅.

(** A numeric string other than ["0"] whose Number is zero. *)
Definition env_port_zero : Env := <["PORT" := "0.0"]> ∅.

(** A negative port. *)
Definition env_port_negative : Env := <["PORT" := "-5"]> ∅.

(** Two environments that differ outside the variables [Config] reads. *)
Definition env_small : Env := <["PORT" := "8080"]> ∅.
Definition env_large : Env :=
  <["HOME" := "/root"]> (<["PORT" := "8080"]> (<["LANG" := "C"]> ∅)).

(** ** Example inputs of the lifecycle *)

(** A stand-in for the one-way transform: cost, salt and plaintext joined. *)
Definition sample_digest (cost : nat) (salt plaintext : string) : string :=
  String.append salt (String "$" plaintext).

(** A stand-in for the signature primitive. *)
Definition sample_sign (secret : string) (claims : nat * Auth.Time) : string :=
  String.append secret (String "." (string_of_list_ascii
    (List.repeat "u"%char (fst claims)))).

(** A stand-in for the input validation: no field may be empty. *)
Definition sample_validate (name email password : string) : bool :=
  negb (String.eqb name "") && negb (String.eqb email "")
  && negb (String.eqb password "").

Definition sample_settings : Auth.Settings :=
  {| Auth.access_secret := "access-secret";
     Auth.refresh_secret := "refresh-secret";
     Auth.access_lifetime := 900;
     Auth.refresh_lifetime := 604800;
     Auth.code_window := 600;
     Auth.cost_factor := 12 |}.

(** The world before anybody registered. *)
Definition empty_world : Auth.World :=
  {| Auth.store := []; Auth.next_id := 0; Auth.outbox := [] |}.

(** A verified account. *)
Definition ann : Auth.User :=
  {| Auth.user_id := 0;
     Auth.user_name := "Ann";
     Auth.user_email := "ann@x.com";
     Auth.user_secret :=
       {| Auth.hash_cost := 12;
          Auth.hash_salt := "salt-1";
          Auth.hash_digest := sample_digest 12 "salt-1" "Secret123!" |};
     Auth.user_verified := true;
     Auth.user_verification := None;
     Auth.user_reset := None |}.

(** The world in which only Ann has an account. *)
Definition ann_world : Auth.World :=
  {| Auth.store := [ann]; Auth.next_id := 1; Auth.outbox := [] |}.

(** A deployment environment, and a [.env] file that disagrees with it on
    [PORT] and adds [CLIENT_URL]. *)
Definition env_production : Env :=
  <["NODE_ENV" := "production"]> (<["PORT" := "8080"]> ∅).
Definition dotenv_file : Env :=
  <["PORT" := "9999"]> (<["CLIENT_URL" := "https://app.example.com"]> ∅).

(** A deployment environment that sets [CLIENT_URL] itself, and a variable
    [Config] does not read. *)
Definition env_deployed : Env :=
  <["CLIENT_URL" := "https://app.example.com"]>
    (<["HOME" := "/srv/app"]> env_production).

(** ** Properties of the JavaScript fragment *)

Lemma or_Num (n d : JS.number) :
  JS.or (JS.Num n) (JS.Num d)
  = JS.Num (if is_nan n || is_zero n then d else n).
Proof. destruct n; reflexivity. Qed.

Lemma or_Str (s d : string) :
  JS.or (JS.Str s) (JS.Str d)
  = JS.Str (if String.eqb s "" then d else s).
Proof. destruct s; reflexivity. Qed.

Lemma or_Undefined (v : JS.value) : JS.or JS.Undefined v = v.
Proof. reflexivity. Qed.

Lemma numeric_string_is_nan (s : string) :
  numeric_string s = negb (is_nan (JS.StringToNumber s)).
Proof. unfold numeric_string. destruct (JS.StringToNumber s); reflexivity. Qed.

(** The arithmetic of the one computed default, [15 * 60 * 1000]. *)
Lemma rate_limit_window_default :
  JS.mul (JS.mul (JS.lit 15) (JS.lit 60)) (JS.lit 1000) = JS.lit 900000.
Proof. vm_compute. reflexivity. Qed.

(** Some values of [Number] on strings. *)
Example Number_3000 : JS.Number (JS.Str "3000") = JS.lit 3000.
Proof. vm_compute. reflexivity. Qed.

Example Number_blank : JS.Number (JS.Str "  ") = JS.pos_zero.
Proof. vm_compute. reflexivity. Qed.

Example Number_zero_spellings :
  List.map JS.StringToNumber ["0"; "00"; "0.0"; "+0"; "0e7"; "0x0"; ""]%string
  = List.repeat JS.pos_zero 7
  /\ JS.StringToNumber "-0" = JS.neg_zero
  /\ JS.StringToNumber "1e-400" = JS.pos_zero.
Proof. vm_compute. repeat split. Qed.

Example Number_not_numeric :
  List.map JS.StringToNumber ["abc"; "12px"; "1 2"; "-0x10"; "."; "1e"]%string
  = List.repeat JS.NaN 6.
Proof. vm_compute. reflexivity. Qed.

Example Number_tenth :
  JS.StringToNumber "0.1" = S754_finite false 7205759403792794 (-56).
Proof. vm_compute. reflexivity. Qed.

Example Number_overflow : JS.StringToNumber "1e309" = JS.Infinity.
Proof. vm_compute. reflexivity. Qed.

(** ** Properties of [Config] *)

Lemma process_env_lookup (env : Env) (name : string) :
  process_env env name
  = match env !! name with Some s => JS.Str s | None => JS.Undefined end.
Proof. reflexivity. Qed.

(** [Number(process.env.NAME) || dflt] keeps the converted value unless it
    is [NaN] or a zero. *)
Lemma number_or_spec (env : Env) (name : string) (dflt : JS.number) :
  number_or env name dflt
  = JS.Num match env !! name with
           | None => dflt
           | Some s =>
               let n := JS.StringToNumber s in
               if is_nan n || is_zero n then dflt else n
           end.
Proof.
  unfold number_or. rewrite or_Num, process_env_lookup.
  destruct (env !! name) as [s|]; reflexivity.
Qed.

(** [process.env.NAME || dflt] keeps the string unless it is empty. *)
Lemma string_or_spec (env : Env) (name dflt : string) :
  string_or env name dflt
  = JS.Str match env !! name with
           | None => dflt
           | Some s => if String.eqb s "" then dflt else s
           end.
Proof.
  unfold string_or. rewrite process_env_lookup.
  destruct (env !! name) as [s|]; [apply or_Str | reflexivity].
Qed.

(** The module body exports the object literal of the [process.env] that
    [dotenv.config()] has left, and nothing when the call throws. *)
Lemma load_populated (dotenv_config : DotenvEffect) (env populated : Env) :
  dotenv_config env = Some populated ->
  load dotenv_config env = Some (Config populated).
Proof. intros H. unfold load. rewrite H. reflexivity. Qed.

Lemma load_thrown (dotenv_config : DotenvEffect) (env : Env) :
  dotenv_config env = None -> load dotenv_config env = None.
Proof. intros H. unfold load. rewrite H. reflexivity. Qed.

(** A numeric field is never falsy: it is a Number other than [NaN] and
    zero, because every default is. *)
Lemma number_or_truthy (env : Env) (name : string) (dflt : JS.number) :
  JS.ToBoolean (JS.Num dflt) = true ->
  JS.ToBoolean (number_or env name dflt) = true.
Proof.
  intros Hd. rewrite number_or_spec.
  destruct (env !! name) as [s|]; [| exact Hd].
  cbn zeta. destruct (JS.StringToNumber s); cbn; auto.
Qed.

(** A defaulted string field is never the empty string. *)
Lemma string_or_nonempty (env : Env) (name dflt : string) :
  dflt <> ""%string -> string_or env name dflt <> JS.Str "".
Proof.
  intros Hd. rewrite string_or_spec.
  destruct (env !! name) as [[|c s]|]; cbn; congruence.
Qed.

(** *** The two signing secrets *)

(** C1, as stated, fails: in the environment that sets both
    [JWT_ACCESS_TOKEN] and [JWT_REFRESH_TOKEN] to ["s3cret"], the access
    secret and the refresh secret of [Config] are the same string. *)
Lemma shared_signing_secret :
  JWT_ACCESS_TOKEN (Config env_shared_secret) = JS.Str "s3cret"
  /\ JWT_REFRESH_TOKEN (Config env_shared_secret) = JS.Str "s3cret"
  /\ JWT_ACCESS_TOKEN (Config env_shared_secret)
     = JWT_REFRESH_TOKEN (Config env_shared_secret).
Proof. vm_compute. repeat split. Qed.

(** C1 (amended): the access secret and the refresh secret are read from
    two separate environment variables, each passed through unchanged, so
    the two secrets of [Config] differ exactly when the environment gives
    the two variables different values; nothing in [Config] enforces it. *)
Theorem signing_secrets_distinct_iff (env : Env) :
  JWT_ACCESS_TOKEN (Config env) = process_env env "JWT_ACCESS_TOKEN"
  /\ JWT_REFRESH_TOKEN (Config env) = process_env env "JWT_REFRESH_TOKEN"
  /\ (JWT_ACCESS_TOKEN (Config env) <> JWT_REFRESH_TOKEN (Config env)
      <-> env !! "JWT_ACCESS_TOKEN" <> env !! "JWT_REFRESH_TOKEN").
Proof.
  split; [reflexivity | split; [reflexivity |]].
  cbn [Config JWT_ACCESS_TOKEN JWT_REFRESH_TOKEN]. unfold as_string.
  rewrite !process_env_lookup.
  destruct (env !! "JWT_ACCESS_TOKEN") as [a|],
           (env !! "JWT_REFRESH_TOKEN") as [r|];
    split; intros H Heq; apply H; congruence.
Qed.

(** *** Token lifetimes *)

(** C2, as stated, fails on its last part: with [JWT_ACCESS_EXPIRY] set to
    the empty string the configured expiry is the default ["15m"], not the
    environment value. *)
Lemma empty_expiry_falls_back :
  env_empty_expiry !! "JWT_ACCESS_EXPIRY" = Some ""%string
  /\ JWT_ACCESS_EXPIRY (Config env_empty_expiry) = JS.Str "15m"
  /\ JWT_ACCESS_EXPIRY (Config env_empty_expiry) <> JS.Str "".
Proof. vm_compute. repeat split. discriminate. Qed.

(** C2 (amended): the token lifetimes are configurable through
    [JWT_ACCESS_EXPIRY] and [JWT_REFRESH_EXPIRY]; when the variable is unset
    or set to the empty string the expiry is ["15m"] (access) or ["7d"]
    (refresh); when it is set to a non-empty string the expiry is that
    string. *)
Theorem token_expiry_configured (env : Env) :
  ((env !! "JWT_ACCESS_EXPIRY" = None \/ env !! "JWT_ACCESS_EXPIRY" = Some ""%string)
   -> JWT_ACCESS_EXPIRY (Config env) = JS.Str "15m")
  /\ ((env !! "JWT_REFRESH_EXPIRY" = None \/ env !! "JWT_REFRESH_EXPIRY" = Some ""%string)
      -> JWT_REFRESH_EXPIRY (Config env) = JS.Str "7d")
  /\ (forall s : string, env !! "JWT_ACCESS_EXPIRY" = Some s -> s <> ""%string
      -> JWT_ACCESS_EXPIRY (Config env) = JS.Str s)
  /\ (forall s : string, env !! "JWT_REFRESH_EXPIRY" = Some s -> s <> ""%string
      -> JWT_REFRESH_EXPIRY (Config env) = JS.Str s).
Proof.
  cbn [Config JWT_ACCESS_EXPIRY JWT_REFRESH_EXPIRY].
  rewrite !string_or_spec.
  repeat split.
  - intros [-> | ->]; reflexivity.
  - intros [-> | ->]; reflexivity.
  - intros s -> Hs. destruct s; [congruence | reflexivity].
  - intros s -> Hs. destruct s; [congruence | reflexivity].
Qed.

(** *** The cost factor *)

(** C3, as stated, fails on its bound: with [BCRYPT_SALT_ROUND=4] the cost
    factor of [Config] is 4, and 10 is not below or equal to it. *)
Lemma four_salt_rounds :
  BCRYPT_SALT_ROUND (Config env_four_rounds) = JS.Num (JS.lit 4)
  /\ JS.leb (JS.lit 10) (JS.lit 4) = false.
Proof. vm_compute. split; reflexivity. Qed.

(** C3 (amended): [BCRYPT_SALT_ROUND] is configurable through the
    environment variable of that name.  It is always a Number; when the
    variable is unset, or its Number is [NaN] or zero, it is 12, which is
    at least 10; otherwise it is the Number of the variable, whatever its
    size: no lower bound is enforced. *)
Theorem salt_round_configured (env : Env) :
  exists n : JS.number,
    BCRYPT_SALT_ROUND (Config env) = JS.Num n
    /\ (env !! "BCRYPT_SALT_ROUND" = None -> n = JS.lit 12)
    /\ (forall s : string, env !! "BCRYPT_SALT_ROUND" = Some s ->
        n = if is_nan (JS.StringToNumber s) || is_zero (JS.StringToNumber s)
            then JS.lit 12 else JS.StringToNumber s)
    /\ JS.leb (JS.lit 10) (JS.lit 12) = true.
Proof.
  cbn [Config BCRYPT_SALT_ROUND]. rewrite number_or_spec.
  eexists. split; [reflexivity |].
  split; [| split].
  - intros ->. reflexivity.
  - intros s ->. reflexivity.
  - vm_compute. reflexivity.
Qed.

(** *** Purity *)

(** The object literal is determined by the fifteen variables it reads. *)
Lemma Config_frame (env1 env2 : Env) :
  (forall name : string, In name config_variables -> env1 !! name = env2 !! name) ->
  Config env1 = Config env2.
Proof.
  intros H. unfold Config, number_or, string_or, process_env.
  repeat match goal with
         | |- context [env1 !! ?k] =>
             rewrite (H k) by (unfold config_variables; cbn; tauto)
         end.
  reflexivity.
Qed.

(** C8, as stated, fails: two evaluations of the module under the same
    process environment (the empty one) export different [Config] values
    when [dotenv.config()] finds a different [.env] file, whether or not it
    is told to override: without a file [PORT] is 3000, with the file that
    sets [PORT=9999] it is 9999.  The file is an input beside the process
    environment. *)
Lemma dotenv_file_changes_Config :
  load dotenv_no_file ∅ = Some (Config ∅)
  /\ load (dotenv_merge false dotenv_file) ∅ = Some (Config dotenv_file)
  /\ load (dotenv_merge true dotenv_file) ∅ = Some (Config dotenv_file)
  /\ PORT (Config ∅) = JS.Num (JS.lit 3000)
  /\ PORT (Config dotenv_file) = JS.Num (JS.lit 9999)
  /\ load (dotenv_merge false dotenv_file) ∅ <> load dotenv_no_file ∅.
Proof.
  assert (H1 : load dotenv_no_file ∅ = Some (Config ∅)) by reflexivity.
  assert (H2 : load (dotenv_merge false dotenv_file) ∅ = Some (Config dotenv_file)).
  { unfold load, dotenv_merge. rewrite (left_id_L ∅ (∪)). reflexivity. }
  assert (H3 : load (dotenv_merge true dotenv_file) ∅ = Some (Config dotenv_file)).
  { unfold load, dotenv_merge. rewrite (right_id_L ∅ (∪)). reflexivity. }
  assert (H4 : PORT (Config ∅) = JS.Num (JS.lit 3000)) by (vm_compute; reflexivity).
  assert (H5 : PORT (Config dotenv_file) = JS.Num (JS.lit 9999))
    by (vm_compute; reflexivity).
  repeat split; try assumption.
  rewrite H1, H2. intros Heq.
  assert (Hport : PORT (Config dotenv_file) = PORT (Config ∅)) by congruence.
  rewrite H4, H5 in Hport. vm_compute in Hport. discriminate.
Qed.

(** C8 (amended): the exported [Config] is the object literal evaluated on
    [process.env] as [dotenv.config()] leaves it.  The literal is a function
    of that map and of nothing else: two evaluations under maps that agree
    on the fifteen variables it reads (identical maps in particular) yield
    identical [Config] values, whatever process environments and whatever
    effects of [dotenv.config()] produced the maps.  The module as a whole
    is not a function of the process environment alone: the call first
    changes the ambient [process.env] from the [.env] file. *)
Theorem Config_determined_by_populated_environment
    (dotenv1 dotenv2 : DotenvEffect) (env1 env2 populated1 populated2 : Env) :
  dotenv1 env1 = Some populated1 ->
  dotenv2 env2 = Some populated2 ->
  (forall name : string, In name config_variables ->
     populated1 !! name = populated2 !! name) ->
  load dotenv1 env1 = Some (Config populated1)
  /\ load dotenv2 env2 = Some (Config populated2)
  /\ Config populated1 = Config populated2
  /\ load dotenv1 env1 = load dotenv2 env2.
Proof.
  intros H1 H2 Hagree.
  rewrite (load_populated _ _ _ H1), (load_populated _ _ _ H2),
          (Config_frame _ _ Hagree).
  repeat split; reflexivity.
Qed.

Lemma Config_determined_by_populated_environment_example :
  load (dotenv_merge false dotenv_file) env_production
  = Some (Config (env_production ∪ dotenv_file))
  /\ load dotenv_no_file env_deployed = Some (Config env_deployed)
  /\ Config (env_production ∪ dotenv_file) = Config env_deployed
  /\ load (dotenv_merge false dotenv_file) env_production
     = load dotenv_no_file env_deployed.
Proof.
  apply (Config_determined_by_populated_environment
           (dotenv_merge false dotenv_file) dotenv_no_file
           env_production env_deployed
           (env_production ∪ dotenv_file) env_deployed).
  - reflexivity.
  - reflexivity.
  - intros name Hin. unfold config_variables in Hin. cbn in Hin.
    repeat (destruct Hin as [<- | Hin]; [vm_compute; reflexivity |]).
    contradiction.
Defined.

(** *** Absent variables *)

(** C9: when one of [MONGO_URI], [JWT_ACCESS_TOKEN], [JWT_REFRESH_TOKEN],
    [EMAIL_HOST], [EMAIL_USER], [EMAIL_PASS] is absent from the
    environment, constructing [Config] still yields an object, with no
    error, and the corresponding field is [undefined]. *)
Theorem absent_variable_is_undefined
    (env : Env) (name : string) (field : ConfigObject -> JS.value) :
  In (name, field) cast_fields ->
  env !! name = None ->
  exists c : ConfigObject, Config env = c /\ field c = JS.Undefined.
Proof.
  intros Hin Hnone. exists (Config env). split; [reflexivity |].
  unfold cast_fields in Hin. cbn in Hin.
  repeat (destruct Hin as [Heq | Hin];
          [ injection Heq as <- <-;
            cbn; unfold as_string; rewrite process_env_lookup, Hnone;
            reflexivity |]).
  contradiction.
Qed.

Lemma absent_variable_is_undefined_example :
  exists c : ConfigObject, Config ∅ = c /\ MONGO_URI c = JS.Undefined.
Proof.
  apply (absent_variable_is_undefined ∅ "MONGO_URI" MONGO_URI).
  - unfold cast_fields. left. reflexivity.
  - reflexivity.
Defined.

(** *** Numeric fields *)

(** C10, as stated, fails on its last part: ["0.0"] is a numeric string
    other than ["0"], and with [PORT=0.0] the field is the default 3000,
    not the Number of the string (which is zero). *)
Lemma zero_point_zero_port :
  env_port_zero !! "PORT" = Some "0.0"%string
  /\ numeric_string "0.0" = true
  /\ String.eqb "0.0" "0" = false
  /\ JS.StringToNumber "0.0" = JS.pos_zero
  /\ PORT (Config env_port_zero) = JS.Num (JS.lit 3000)
  /\ PORT (Config env_port_zero) <> JS.Num (JS.StringToNumber "0.0").
Proof. vm_compute. repeat split. discriminate. Qed.

(** C10 (amended): for every numeric field ([PORT], [EMAIL_PORT],
    [BCRYPT_SALT_ROUND], [RATE_LIMIT_WINDOW_MS], [RATE_LIMIT_MAX_REQUESTS]),
    if the variable is absent, non-numeric, or a string whose Number is
    zero (["0"], but also ["0.0"], ["-0"], [""], ...), the field equals its
    built-in default (3000, 587, 12, 900000, 100); if the variable is a
    numeric string whose Number is not zero, a negative one included, the
    field equals that Number unchanged. *)
Theorem numeric_field_default_or_value
    (env : Env) (name : string) (field : ConfigObject -> JS.value) (dflt : Z) :
  In (name, field, dflt) numeric_fields ->
  (env !! name = None -> field (Config env) = JS.Num (JS.lit dflt))
  /\ (forall s : string, env !! name = Some s -> numeric_string s = false ->
      field (Config env) = JS.Num (JS.lit dflt))
  /\ (forall s : string, env !! name = Some s ->
      is_zero (JS.StringToNumber s) = true ->
      field (Config env) = JS.Num (JS.lit dflt))
  /\ (env !! name = Some "0"%string -> field (Config env) = JS.Num (JS.lit dflt))
  /\ (forall s : string, env !! name = Some s -> numeric_string s = true ->
      is_zero (JS.StringToNumber s) = false ->
      field (Config env) = JS.Num (JS.StringToNumber s)).
Proof.
  intros Hin.
  assert (Hspec : field (Config env)
                  = JS.Num match env !! name with
                           | None => JS.lit dflt
                           | Some s =>
                               let n := JS.StringToNumber s in
                               if is_nan n || is_zero n then JS.lit dflt else n
                           end).
  { unfold numeric_fields in Hin. cbn in Hin.
    repeat (destruct Hin as [Heq | Hin];
            [ injection Heq as <- <- <-; cbn [Config PORT EMAIL_PORT
                BCRYPT_SALT_ROUND RATE_LIMIT_WINDOW_MS RATE_LIMIT_MAX_REQUESTS];
              rewrite ?rate_limit_window_default; apply number_or_spec |]).
    contradiction. }
  rewrite Hspec. repeat split.
  - intros ->. reflexivity.
  - intros s -> Hs. rewrite numeric_string_is_nan in Hs.
    cbn zeta. destruct (is_nan (JS.StringToNumber s)); [reflexivity | discriminate].
  - intros s -> Hs. cbn zeta. rewrite Hs, orb_true_r. reflexivity.
  - intros ->. vm_compute. reflexivity.
  - intros s -> Hn Hz. rewrite numeric_string_is_nan in Hn.
    cbn zeta. rewrite Hz. destruct (is_nan (JS.StringToNumber s)); [discriminate | reflexivity].
Qed.

Lemma numeric_field_default_or_value_example :
  PORT (Config env_port_negative) = JS.Num (JS.neg (JS.lit 5))
  /\ JS.ltb (JS.neg (JS.lit 5)) (JS.lit 0) = true.
Proof.
  split; [| vm_compute; reflexivity].
  destruct (numeric_field_default_or_value env_port_negative "PORT" PORT 3000)
    as (_ & _ & _ & _ & H).
  - unfold numeric_fields. left. reflexivity.
  - rewrite (H "-5"%string); [ | reflexivity | vm_compute; reflexivity
                               | vm_compute; reflexivity ].
    vm_compute. reflexivity.
Defined.

(** ** Properties of the authentication lifecycle *)

Module AuthFacts.
Import Auth.

(** *** Constant-time comparison *)

Lemma ct_diff_zero_acc (a b : list ascii) (acc : N) :
  ct_diff acc a b = 0%N -> acc = 0%N.
Proof.
  revert b acc. induction a as [|x a IH]; intros [|y b] acc H; cbn in H; auto.
  apply IH in H. apply N.lor_eq_0_iff in H. tauto.
Qed.

Lemma ct_diff_same (a : list ascii) (acc : N) : ct_diff acc a a = acc.
Proof.
  revert acc. induction a as [|x a IH]; intros acc; cbn; [reflexivity |].
  rewrite IH, N.lxor_nilpotent, N.lor_0_r. reflexivity.
Qed.

Lemma ct_diff_eq (a b : list ascii) :
  List.length a = List.length b -> ct_diff 0%N a b = 0%N -> a = b.
Proof.
  revert b. induction a as [|x a IH]; intros [|y b] Hlen H; cbn in *;
    try discriminate; [reflexivity |].
  assert (Hacc := ct_diff_zero_acc _ _ _ H).
  apply N.lxor_eq in Hacc.
  assert (x = y) as ->.
  { rewrite <- (ascii_N_embedding x), <- (ascii_N_embedding y).
    congruence. }
  rewrite N.lxor_nilpotent in H. f_equal. apply IH; [lia | exact H].
Qed.

Lemma ct_eqb_refl (s : string) : ct_eqb s s = true.
Proof.
  unfold ct_eqb. rewrite Nat.eqb_refl, ct_diff_same. reflexivity.
Qed.

(** The comparison decides equality. *)
Lemma ct_eqb_true_iff (a b : string) : ct_eqb a b = true <-> a = b.
Proof.
  split; [| intros ->; apply ct_eqb_refl].
  unfold ct_eqb. intros H. apply andb_true_iff in H as [Hlen Hd].
  apply Nat.eqb_eq in Hlen. apply N.eqb_eq in Hd.
  rewrite <- (string_of_list_ascii_of_string a),
          <- (string_of_list_ascii_of_string b).
  f_equal. apply ct_diff_eq; assumption.
Qed.

(** *** Code generator *)

Lemma check_valid (code : string) (expiry now : Time) :
  now <= expiry -> check code expiry code now = valid.
Proof.
  intros H. unfold check.
  destruct (Z.ltb_spec expiry now); [lia |].
  rewrite ct_eqb_refl. reflexivity.
Qed.

Lemma check_mismatch (stored supplied : string) (expiry now : Time) :
  now <= expiry -> stored <> supplied ->
  check stored expiry supplied now = mismatch.
Proof.
  intros H Hne. unfold check.
  destruct (Z.ltb_spec expiry now); [lia |].
  destruct (ct_eqb stored supplied) eqn:E; [| reflexivity].
  apply ct_eqb_true_iff in E. contradiction.
Qed.

Lemma check_expired (stored supplied : string) (expiry now : Time) :
  expiry < now -> check stored expiry supplied now = expired.
Proof.
  intros H. unfold check.
  destruct (Z.ltb_spec expiry now); [reflexivity | lia].
Qed.

(** C5: for every stored code and expiry timestamp, a check at a time
    strictly after the expiry is [expired] (the Auth Service reports
    [CodeExpired]), whatever code is supplied, the stored code itself
    included. *)
Theorem check_after_expiry
    (storedCode suppliedCode : string) (storedExpiry now : Time) :
  storedExpiry < now ->
  check storedCode storedExpiry suppliedCode now = expired
  /\ check storedCode storedExpiry storedCode now = expired.
Proof.
  intros H. split; apply check_expired; exact H.
Qed.

Lemma check_after_expiry_example :
  check "493027" 1000 "000000" 1001 = expired
  /\ check "493027" 1000 "493027" 1001 = expired.
Proof. apply (check_after_expiry "493027" "000000" 1000 1001). lia. Defined.

(** *** Credential store *)

Lemma find_app_none {A : Type} (p : A -> bool) (l1 l2 : list A) :
  List.find p l1 = None -> List.find p (l1 ++ l2) = List.find p l2.
Proof.
  induction l1 as [|x l1 IH]; cbn; [reflexivity |].
  destruct (p x); [discriminate | exact IH].
Qed.

Lemma find_map_stable {A : Type} (p : A -> bool) (g : A -> A) (l : list A) :
  (forall x, p (g x) = p x) ->
  List.find p (List.map g l) = option_map g (List.find p l).
Proof.
  intros Hg. induction l as [|x l IH]; cbn; [reflexivity |].
  rewrite Hg. destruct (p x); [reflexivity | exact IH].
Qed.

Lemma find_some_holds {A : Type} (p : A -> bool) (l : list A) (x : A) :
  List.find p l = Some x -> p x = true.
Proof. intros H. apply List.find_some in H. tauto. Qed.

Lemma findByEmail_create_fresh (email : string) (u : User) (users : list User) :
  findByEmail email users = None -> user_email u = email ->
  findByEmail email (create u users) = Some u.
Proof.
  intros Hnone Hmail. unfold findByEmail, create in *.
  rewrite find_app_none by exact Hnone. cbn.
  rewrite Hmail, String.eqb_refl. reflexivity.
Qed.

(** An update that keeps the email keeps the record findable, updated when
    the id is the record's own. *)
Lemma findByEmail_updateById (email : string) (f : User -> User)
    (u : User) (users : list User) :
  (forall x, user_email (f x) = user_email x) ->
  findByEmail email users = Some u ->
  findByEmail email (updateById (user_id u) f users) = Some (f u).
Proof.
  intros Hf Hfind. unfold findByEmail, updateById in *.
  rewrite find_map_stable.
  - rewrite Hfind. cbn. rewrite Nat.eqb_refl. reflexivity.
  - intros x. destruct (Nat.eqb (user_id x) (user_id u)); [| reflexivity].
    rewrite Hf. reflexivity.
Qed.

Section LifecycleFacts.

Variable digest : nat -> string -> string -> string.
Variable sign : string -> nat * Time -> string.
Variable validate : string -> string -> string -> bool.
Variable cfg : Settings.

(** *** Secret Hasher *)

Lemma hash_nonempty (salt plaintext : string) :
  plaintext <> ""%string ->
  hash digest cfg salt plaintext
  = Ok {| hash_cost := cost_factor cfg;
          hash_salt := salt;
          hash_digest := digest (cost_factor cfg) salt plaintext |}.
Proof. intros H. destruct plaintext; [congruence | reflexivity]. Qed.

Lemma hash_empty (salt : string) :
  hash digest cfg salt "" = Err ValidationError.
Proof. reflexivity. Qed.

Lemma verify_hash (salt plaintext : string) (h : StoredHash) :
  hash digest cfg salt plaintext = Ok h -> verify digest plaintext h = true.
Proof.
  destruct plaintext; cbn; [discriminate |].
  intros [= <-]. unfold verify. cbn. apply ct_eqb_refl.
Qed.

(** The stored hash carries the salt of the invocation that made it. *)
Lemma hash_salt_of (salt plaintext : string) (h : StoredHash) :
  hash digest cfg salt plaintext = Ok h -> hash_salt h = salt.
Proof. destruct plaintext; cbn; [discriminate |]. intros [= <-]. reflexivity. Qed.

(** C6 (amended): for every non-empty password, two invocations of the
    Secret Hasher on the same plaintext both succeed, and the two stored
    hashes differ exactly when the salts the two invocations drew differ
    (the hash carries its salt; two invocations that draw the same salt
    return the same hash); the verification operation matches the plaintext
    against each of the two hashes. *)
Theorem hash_twice (password salt1 salt2 : string) :
  password <> ""%string ->
  exists h1 h2 : StoredHash,
    hash digest cfg salt1 password = Ok h1
    /\ hash digest cfg salt2 password = Ok h2
    /\ (h1 <> h2 <-> salt1 <> salt2)
    /\ verify digest password h1 = true
    /\ verify digest password h2 = true.
Proof.
  intros Hpw.
  destruct (hash digest cfg salt1 password) as [h1|e1] eqn:E1;
    [| rewrite hash_nonempty in E1 by exact Hpw; discriminate].
  destruct (hash digest cfg salt2 password) as [h2|e2] eqn:E2;
    [| rewrite hash_nonempty in E2 by exact Hpw; discriminate].
  exists h1, h2. repeat split.
  - intros Hne Hsalt. apply Hne. subst salt2. congruence.
  - intros Hsalt Heq. apply Hsalt.
    rewrite <- (hash_salt_of _ _ _ E1), <- (hash_salt_of _ _ _ E2).
    congruence.
  - exact (verify_hash _ _ _ E1).
  - exact (verify_hash _ _ _ E2).
Qed.

(** *** Token Issuer *)

Lemma verifyToken_issueToken (c : TokenClass) (now later : Time) (userId : nat) :
  later <= now + lifetime_of cfg c ->
  verifyToken sign cfg c later (issueToken sign cfg c now userId) = Ok userId.
Proof.
  intros H. unfold verifyToken, issueToken. cbn.
  rewrite ct_eqb_refl.
  destruct (Z.ltb_spec (now + lifetime_of cfg c) later); [lia | reflexivity].
Qed.

Lemma verifyToken_expired (c : TokenClass) (now later : Time) (userId : nat) :
  now + lifetime_of cfg c < later ->
  verifyToken sign cfg c later (issueToken sign cfg c now userId)
  = Err ExpiredToken.
Proof.
  intros H. unfold verifyToken, issueToken. cbn.
  rewrite ct_eqb_refl.
  destruct (Z.ltb_spec (now + lifetime_of cfg c) later); [reflexivity | lia].
Qed.

(** *** Auth Service *)

(** A failed operation leaves the world as it was. *)
Lemma register_error_no_mutation (now : Time) (salt code name email password : string)
    (w w' : World) (e : Error) :
  register digest validate cfg now salt code name email password w = (Err e, w') ->
  w' = w.
Proof.
  unfold register.
  destruct (validate name email password); cbn; [| congruence].
  destruct (findByEmail email (store w)); [congruence |].
  destruct (hash digest cfg salt password); cbn; congruence.
Qed.

Lemma verifyEmail_after_expiry (now : Time) (email code stored : string)
    (expiry : Time) (u : User) (w : World) :
  findByEmail email (store w) = Some u ->
  user_verification u = Some (stored, expiry) ->
  expiry < now ->
  verifyEmail now email code w = (Err CodeExpired, w).
Proof.
  intros Hfind Hcode Hlate. unfold verifyEmail.
  rewrite Hfind, Hcode, check_expired by exact Hlate.
  reflexivity.
Qed.

Lemma login_before_verification (now : Time) (email password : string)
    (u : User) (w : World) :
  findByEmail email (store w) = Some u ->
  user_verified u = false ->
  login digest sign cfg now email password w = (Err NotVerified, w).
Proof. intros Hfind Hv. unfold login. rewrite Hfind, Hv. reflexivity. Qed.

(** The world after a successful registration. *)
Lemma register_ok (now : Time) (salt code name email password : string) (w : World) :
  validate name email password = true ->
  password <> ""%string ->
  findByEmail email (store w) = None ->
  register digest validate cfg now salt code name email password w
  = (Ok Registered,
     {| store :=
          create {| user_id := next_id w;
                    user_name := name;
                    user_email := email;
                    user_secret :=
                      {| hash_cost := cost_factor cfg;
                         hash_salt := salt;
                         hash_digest := digest (cost_factor cfg) salt password |};
                    user_verified := false;
                    user_verification := Some (code, now + code_window cfg);
                    user_reset := None |}
                 (store w);
        next_id := S (next_id w);
        outbox := outbox w ++ [ {| mail_to := email;
                                   mail_subject := "verify-email";
                                   mail_code := code |} ] |}).
Proof.
  intros Hvalid Hpw Hfree. unfold register.
  rewrite Hvalid, Hfree, hash_nonempty by exact Hpw. reflexivity.
Qed.

(** The world after a successful verification. *)
Lemma verifyEmail_ok (now : Time) (email code : string) (expiry : Time)
    (u : User) (w : World) :
  findByEmail email (store w) = Some u ->
  user_verification u = Some (code, expiry) ->
  now <= expiry ->
  verifyEmail now email code w
  = (Ok EmailVerified,
     {| store := updateById (user_id u) mark_verified (store w);
        next_id := next_id w;
        outbox := outbox w |}).
Proof.
  intros Hfind Hcode Hnow. unfold verifyEmail.
  rewrite Hfind, Hcode, check_valid by exact Hnow. reflexivity.
Qed.

Lemma verifyEmail_wrong_code (now : Time) (email code stored : string)
    (expiry : Time) (u : User) (w : World) :
  findByEmail email (store w) = Some u ->
  user_verification u = Some (stored, expiry) ->
  now <= expiry -> stored <> code ->
  verifyEmail now email code w = (Err CodeMismatch, w).
Proof.
  intros Hfind Hcode Hnow Hne. unfold verifyEmail.
  rewrite Hfind, Hcode, check_mismatch by assumption. reflexivity.
Qed.

Lemma login_ok (now : Time) (email password : string) (u : User) (w : World) :
  findByEmail email (store w) = Some u ->
  user_verified u = true ->
  verify digest password (user_secret u) = true ->
  login digest sign cfg now email password w
  = (Ok (LoggedIn (issueToken sign cfg access now (user_id u))
                  (issueToken sign cfg refresh now (user_id u))), w).
Proof.
  intros Hfind Hv Hpw. unfold login. rewrite Hfind, Hv, Hpw. reflexivity.
Qed.

(** C4: for every valid triple (name, email, password) whose email is not
    registered yet, [register] succeeds and sends a verification code to
    that email; [verifyEmail] with that code, before its expiry, succeeds
    and leaves the record in the [Verified] state; and a login with the
    same email and password then succeeds and returns an access and a
    refresh token for that user. *)
Theorem register_verify_login
    (registered_at verified_at login_at : Time)
    (salt random_code name email password : string) (w : World) :
  validate name email password = true ->
  password <> ""%string ->
  findByEmail email (store w) = None ->
  verified_at < registered_at + code_window cfg ->
  exists (w1 w2 : World) (m : Mail) (u : User),
    register digest validate cfg registered_at salt random_code
             name email password w = (Ok Registered, w1)
    /\ outbox w1 = outbox w ++ [m]
    /\ mail_to m = email
    /\ state_of email w1 = PendingVerification
    /\ verifyEmail verified_at email (mail_code m) w1 = (Ok EmailVerified, w2)
    /\ state_of email w2 = Verified
    /\ findByEmail email (store w2) = Some u
    /\ user_verified u = true
    /\ user_verification u = None
    /\ login digest sign cfg login_at email password w2
       = (Ok (LoggedIn (issueToken sign cfg access login_at (user_id u))
                       (issueToken sign cfg refresh login_at (user_id u))), w2).
Proof.
  intros Hvalid Hpw Hfree Hnow.
  pose proof (register_ok registered_at salt random_code name email password w
                Hvalid Hpw Hfree) as Hreg.
  match type of Hreg with
  | context [create ?x _] => set (u0 := x) in *
  end.
  match type of Hreg with _ = (_, ?x) => set (w1 := x) in * end.
  assert (Hfind1 : findByEmail email (store w1) = Some u0)
    by (apply findByEmail_create_fresh; [exact Hfree | reflexivity]).
  pose proof (verifyEmail_ok verified_at email random_code
                (registered_at + code_window cfg) u0 w1 Hfind1 eq_refl
                ltac:(lia)) as Hver.
  match type of Hver with _ = (_, ?x) => set (w2 := x) in * end.
  assert (Hfind2 : findByEmail email (store w2) = Some (mark_verified u0)).
  { apply (findByEmail_updateById email mark_verified u0 (store w1));
      [reflexivity | exact Hfind1]. }
  exists w1, w2,
    {| mail_to := email; mail_subject := "verify-email"; mail_code := random_code |},
    (mark_verified u0).
  split; [exact Hreg |].
  split; [reflexivity |].
  split; [reflexivity |].
  split; [unfold state_of; rewrite Hfind1; reflexivity |].
  split; [exact Hver |].
  split; [unfold state_of; rewrite Hfind2; reflexivity |].
  split; [exact Hfind2 |].
  split; [reflexivity |].
  split; [reflexivity |].
  apply login_ok; [exact Hfind2 | reflexivity |].
  unfold verify. cbn. apply ct_eqb_refl.
Qed.

(** The fixed answer of [forgotPassword]. *)
Lemma forgotPassword_response (now : Time) (random_code email : string) (w : World) :
  fst (forgotPassword cfg now random_code email w) = Ok Accepted.
Proof.
  unfold forgotPassword.
  destruct (findByEmail email (store w)) as [u|]; [| reflexivity].
  destruct (user_verified u); reflexivity.
Qed.

(** What [forgotPassword] does to the world. *)
Lemma forgotPassword_world (now : Time) (random_code email : string) (w : World) :
  snd (forgotPassword cfg now random_code email w)
  = match findByEmail email (store w) with
    | Some u =>
        if user_verified u then
          {| store :=
               updateById (user_id u)
                 (with_reset (Some (random_code, now + code_window cfg)))
                 (store w);
             next_id := next_id w;
             outbox := outbox w ++ [ {| mail_to := user_email u;
                                        mail_subject := "reset-password";
                                        mail_code := random_code |} ] |}
        else w
    | None => w
    end.
Proof.
  unfold forgotPassword.
  destruct (findByEmail email (store w)) as [u|]; [| reflexivity].
  destruct (user_verified u); reflexivity.
Qed.

(** C7: for every pair of emails, one registered and one not, the two
    responses of [forgotPassword] are the same success response, so the
    caller learns nothing about registration from them; a reset code is
    issued and sent only when the account exists and is verified: for the
    unregistered email, and for a registered but unverified one, the world
    (store and outbox) is unchanged, and for a registered, verified one the
    code is stored with its expiry and one message carrying it is handed to
    the email collaborator. *)
Theorem forgotPassword_no_enumeration
    (now1 now2 : Time) (code1 code2 registered unregistered : string)
    (u : User) (w : World) :
  findByEmail registered (store w) = Some u ->
  findByEmail unregistered (store w) = None ->
  fst (forgotPassword cfg now1 code1 registered w)
  = fst (forgotPassword cfg now2 code2 unregistered w)
  /\ fst (forgotPassword cfg now1 code1 registered w) = Ok Accepted
  /\ snd (forgotPassword cfg now2 code2 unregistered w) = w
  /\ (user_verified u = false ->
      snd (forgotPassword cfg now1 code1 registered w) = w)
  /\ (user_verified u = true ->
      let w' := snd (forgotPassword cfg now1 code1 registered w) in
      outbox w' = outbox w ++ [ {| mail_to := user_email u;
                                   mail_subject := "reset-password";
                                   mail_code := code1 |} ]
      /\ findByEmail registered (store w')
         = Some (with_reset (Some (code1, now1 + code_window cfg)) u)
      /\ state_of registered w' = PasswordResetPending).
Proof.
  intros Hreg Hunreg.
  rewrite !forgotPassword_response, !forgotPassword_world, Hreg, Hunreg.
  split; [reflexivity |].
  split; [reflexivity |].
  split; [reflexivity |].
  split.
  - intros ->. reflexivity.
  - intros Hv. rewrite Hv. cbn zeta. cbn [outbox store].
    assert (Hfind : findByEmail registered
              (updateById (user_id u)
                 (with_reset (Some (code1, now1 + code_window cfg))) (store w))
            = Some (with_reset (Some (code1, now1 + code_window cfg)) u))
      by (apply findByEmail_updateById; [reflexivity | exact Hreg]).
    split; [reflexivity |].
    split; [exact Hfind |].
    unfold state_of. cbn [store]. rewrite Hfind. cbn. rewrite Hv. reflexivity.
Qed.

End LifecycleFacts.

(** *** The lifecycle on the example inputs *)

(** C6, as stated, fails: two invocations that draw the same salt return
    the same stored hash. *)
Lemma equal_salts_equal_hashes :
  exists h1 h2 : StoredHash,
    hash sample_digest sample_settings "salt-1" "Secret123!" = Ok h1
    /\ hash sample_digest sample_settings "salt-1" "Secret123!" = Ok h2
    /\ h1 = h2
    /\ h1 = {| hash_cost := 12;
               hash_salt := "salt-1";
               hash_digest := "salt-1$Secret123!" |}.
Proof. eexists _, _. repeat split; reflexivity. Qed.

Lemma hash_twice_example :
  exists h1 h2 : StoredHash,
    hash sample_digest sample_settings "salt-1" "Secret123!" = Ok h1
    /\ hash sample_digest sample_settings "salt-2" "Secret123!" = Ok h2
    /\ (h1 <> h2 <-> "salt-1"%string <> "salt-2"%string)
    /\ verify sample_digest "Secret123!" h1 = true
    /\ verify sample_digest "Secret123!" h2 = true.
Proof.
  apply (hash_twice sample_digest sample_settings "Secret123!" "salt-1" "salt-2").
  discriminate.
Defined.

Lemma register_verify_login_example :
  exists (w1 w2 : World) (m : Mail) (u : User),
    register sample_digest sample_validate sample_settings 1000
             "salt-1" "493027" "Ann" "ann@x.com" "Secret123!" empty_world
    = (Ok Registered, w1)
    /\ outbox w1 = outbox empty_world ++ [m]
    /\ mail_to m = "ann@x.com"%string
    /\ state_of "ann@x.com" w1 = PendingVerification
    /\ verifyEmail 1200 "ann@x.com" (mail_code m) w1 = (Ok EmailVerified, w2)
    /\ state_of "ann@x.com" w2 = Verified
    /\ findByEmail "ann@x.com" (store w2) = Some u
    /\ user_verified u = true
    /\ user_verification u = None
    /\ login sample_digest sample_sign sample_settings 5000
             "ann@x.com" "Secret123!" w2
       = (Ok (LoggedIn
                (issueToken sample_sign sample_settings access 5000 (user_id u))
                (issueToken sample_sign sample_settings refresh 5000 (user_id u))),
          w2).
Proof.
  apply (register_verify_login sample_digest sample_sign sample_validate
           sample_settings 1000 1200 5000
           "salt-1" "493027" "Ann" "ann@x.com" "Secret123!" empty_world).
  - reflexivity.
  - discriminate.
  - reflexivity.
  - reflexivity.
Defined.

Lemma forgotPassword_no_enumeration_example :
  fst (forgotPassword sample_settings 2000 "118822" "ann@x.com" ann_world)
  = fst (forgotPassword sample_settings 2500 "770011" "bob@x.com" ann_world)
  /\ fst (forgotPassword sample_settings 2000 "118822" "ann@x.com" ann_world)
     = Ok Accepted
  /\ snd (forgotPassword sample_settings 2500 "770011" "bob@x.com" ann_world)
     = ann_world
  /\ (user_verified ann = false ->
      snd (forgotPassword sample_settings 2000 "118822" "ann@x.com" ann_world)
      = ann_world)
  /\ (user_verified ann = true ->
      let w' :=
        snd (forgotPassword sample_settings 2000 "118822" "ann@x.com" ann_world) in
      outbox w' = outbox ann_world ++ [ {| mail_to := user_email ann;
                                           mail_subject := "reset-password";
                                           mail_code := "118822" |} ]
      /\ findByEmail "ann@x.com" (store w')
         = Some (with_reset
                   (Some ("118822"%string, 2000 + code_window sample_settings)) ann)
      /\ state_of "ann@x.com" w' = PasswordResetPending).
Proof.
  apply (forgotPassword_no_enumeration sample_settings 2000 2500
           "118822" "770011" "ann@x.com" "bob@x.com" ann ann_world).
  - reflexivity.
  - reflexivity.
Defined.

(** The scenario of section 8 of the specification, run on the model. *)
Example lifecycle_scenario :
  let reg := register sample_digest sample_validate sample_settings 1000
               "salt-1" "493027" "Ann" "ann@x.com" "Secret123!" empty_world in
  let wrong := verifyEmail 1100 "ann@x.com" "000000" (snd reg) in
  let right := verifyEmail 1200 "ann@x.com" "493027" (snd wrong) in
  let good := login sample_digest sample_sign sample_settings 5000
                "ann@x.com" "Secret123!" (snd right) in
  let bad := login sample_digest sample_sign sample_settings 5000
               "ann@x.com" "wrong" (snd right) in
  fst reg = Ok Registered
  /\ fst wrong = Err CodeMismatch
  /\ fst right = Ok EmailVerified
  /\ state_of "ann@x.com" (snd right) = Verified
  /\ (exists a r, fst good = Ok (LoggedIn a r))
  /\ fst bad = Err InvalidCredentials.
Proof. vm_compute. repeat split. eexists _, _. reflexivity. Qed.

(** Emails are matched without regard to the case of ASCII letters, and a
    second registration under the same email is refused. *)
Example duplicate_email_any_case :
  findByEmail "ANN@X.COM" (store ann_world) = Some ann
  /\ fst (register sample_digest sample_validate sample_settings 1000
            "salt-9" "555555" "Ann B" "Ann@X.com" "Other456!" ann_world)
     = Err DuplicateEmail.
Proof. vm_compute. split; reflexivity. Qed.

End AuthFacts.

(** ** [Number] on decimal integers *)

Module NumberFacts.

(** *** Integer literals below [2 ^ 53] are exact, finite Numbers *)

Lemma digits2_pos_iter_xO (p k : positive) :
  digits2_pos (Pos.iter xO p k) = (digits2_pos p + k)%positive.
Proof.
  induction k as [|k IH] using Pos.peano_ind.
  - cbn. lia.
  - rewrite Pos.iter_succ. cbn [digits2_pos]. rewrite IH. lia.
Qed.

Lemma digits2_pos_le (p : positive) (n : Z) :
  0 <= n -> Zpos p < 2 ^ n -> Zpos (digits2_pos p) <= n.
Proof.
  revert n.
  assert (Hhalf : forall q n, 0 <= n -> 2 * Zpos q < 2 ^ n -> Zpos q < 2 ^ (n - 1)).
  { intros q n Hn H. assert (n <> 0) by (intros ->; cbn in H; lia).
    replace n with (Z.succ (n - 1)) in H by lia.
    rewrite Z.pow_succ_r in H by lia. lia. }
  induction p as [p IH|p IH|]; intros n Hn H; cbn [digits2_pos];
    rewrite ?Pos2Z.inj_succ.
  - assert (n <> 0) by (intros ->; cbn in H; lia).
    specialize (IH (n - 1) ltac:(lia) (Hhalf p n Hn ltac:(lia))). lia.
  - assert (n <> 0) by (intros ->; cbn in H; lia).
    specialize (IH (n - 1) ltac:(lia) (Hhalf p n Hn ltac:(lia))). lia.
  - assert (n <> 0) by (intros ->; cbn in H; lia). lia.
Qed.

(** A mantissa of full width with its canonical exponent is kept as it
    is by the rounding. *)
Lemma binary_round_aux_canonical (s : bool) (m : positive) (e : Z) :
  fexp JS.prec JS.emax (Zpos (digits2_pos m) + e) = e ->
  e <= JS.emax - JS.prec ->
  binary_round_aux JS.prec JS.emax s (Zpos m) e loc_Exact = S754_finite s m e.
Proof.
  intros Hc He. unfold binary_round_aux, shr_fexp.
  cbn [Zdigits2 shr_record_of_loc]. rewrite Hc, Z.sub_diag.
  cbn [shr shr_m loc_of_shr_record round_nearest_even Zdigits2 shr_record_of_loc].
  rewrite Hc, Z.sub_diag. cbn [shr shr_m].
  destruct (Z.leb_spec e (JS.emax - JS.prec)); [reflexivity | lia].
Qed.

Lemma lit_finite (z : Z) :
  0 < z < 2 ^ 53 ->
  exists (m : positive) (e : Z), JS.lit z = S754_finite false m e.
Proof.
  intros [Hpos Hp]. destruct z as [|p|p]; try lia.
  assert (Hd := digits2_pos_le p 53 ltac:(lia) Hp).
  unfold JS.lit, binary_normalize, binary_round.
  set (d := Zpos (digits2_pos p)) in *.
  assert (Hd1 : 1 <= d) by (unfold d; lia).
  assert (Hfexp : forall x, x = d -> fexp JS.prec JS.emax x = d - 53).
  { intros x ->. unfold fexp, emin, JS.prec, JS.emax. lia. }
  rewrite (Hfexp (d + 0)) by lia.
  unfold shl_align.
  destruct (d - 53 - 0) as [|k|k] eqn:E; try lia.
  - exists p, 0. apply binary_round_aux_canonical.
    + fold d. rewrite (Hfexp (d + 0)); lia.
    + unfold JS.emax, JS.prec. lia.
  - exists (Pos.iter xO p k), (d - 53). apply binary_round_aux_canonical.
    + rewrite digits2_pos_iter_xO, Pos2Z.inj_add. fold d.
      apply Hfexp. lia.
    + unfold JS.emax, JS.prec. lia.
Qed.

Lemma lit_truthy (z : Z) :
  0 < z < 2 ^ 53 -> is_nan (JS.lit z) = false /\ is_zero (JS.lit z) = false.
Proof. intros H. destruct (lit_finite z H) as (m & e & ->). split; reflexivity. Qed.

Lemma neg_lit_negative (z : Z) :
  0 < z < 2 ^ 53 ->
  is_nan (JS.neg (JS.lit z)) = false
  /\ is_zero (JS.neg (JS.lit z)) = false
  /\ JS.ltb (JS.neg (JS.lit z)) (JS.lit 0) = true.
Proof.
  intros H. destruct (lit_finite z H) as (m & e & ->). repeat split.
Qed.

(** *** Parsing a string of decimal digits *)

Lemma ascii_eqb_digit_l (c x : ascii) :
  is_decimal_digit c = true -> is_decimal_digit x = false ->
  JS.ascii_eqb c x = false.
Proof.
  intros Hc Hx. unfold JS.ascii_eqb.
  destruct (Ascii.eqb_spec c x) as [-> |]; [congruence | reflexivity].
Qed.

Lemma ascii_eqb_digit_r (c x : ascii) :
  is_decimal_digit c = true -> is_decimal_digit x = false ->
  JS.ascii_eqb x c = false.
Proof.
  intros Hc Hx. unfold JS.ascii_eqb.
  destruct (Ascii.eqb_spec x c) as [-> |]; [congruence | reflexivity].
Qed.

(** No white space pattern matches a string whose first byte differs from
    the first byte of every pattern. *)
Lemma strip_one_no_match (ws : list (list ascii)) (c : ascii) (l : list ascii) :
  List.forallb (fun w => match w with
                         | [] => false
                         | a :: _ => negb (JS.ascii_eqb a c)
                         end) ws = true ->
  JS.strip_one ws (c :: l) = None.
Proof.
  induction ws as [|w ws IH]; cbn; [reflexivity |].
  intros H. apply andb_true_iff in H as [Hw Hws].
  destruct w as [|a w]; [discriminate |]. cbn.
  apply negb_true_iff in Hw. rewrite Hw. apply IH, Hws.
Qed.

Lemma strip_ws_no_match (fuel : nat) (ws : list (list ascii)) (l : list ascii) :
  JS.strip_one ws l = None -> JS.strip_ws fuel ws l = l.
Proof. intros H. destruct fuel; cbn; [reflexivity |]. rewrite H. reflexivity. Qed.

(** The first bytes and the last bytes of the white space characters: none
    is a digit, a sign or a letter. *)
Lemma white_space_first_bytes :
  List.forallb (fun w => match w with
                         | [] => false
                         | a :: _ => (Z.of_N (N_of_ascii a) <? 33)
                                     || (127 <? Z.of_N (N_of_ascii a))
                         end) JS.StrWhiteSpaceChar = true.
Proof. vm_compute. reflexivity. Qed.

Lemma white_space_last_bytes :
  List.forallb (fun w => match w with
                         | [] => false
                         | a :: _ => (Z.of_N (N_of_ascii a) <? 33)
                                     || (127 <? Z.of_N (N_of_ascii a))
                         end)
               (List.map (@List.rev ascii) JS.StrWhiteSpaceChar) = true.
Proof. vm_compute. reflexivity. Qed.

Lemma forallb_weaken {A : Type} (p q : A -> bool) (l : list A) :
  (forall x, p x = true -> q x = true) ->
  List.forallb p l = true -> List.forallb q l = true.
Proof.
  intros Hpq. induction l as [|x l IH]; cbn; [reflexivity |].
  intros H. apply andb_true_iff in H as [Hx Hl].
  rewrite (Hpq x Hx), (IH Hl). reflexivity.
Qed.

(** A printable ASCII character opens, and closes, a trimmed string. *)
Lemma strip_one_printable (ws : list (list ascii)) (c : ascii) (l : list ascii) :
  List.forallb (fun w => match w with
                         | [] => false
                         | a :: _ => (Z.of_N (N_of_ascii a) <? 33)
                                     || (127 <? Z.of_N (N_of_ascii a))
                         end) ws = true ->
  33 <= Z.of_N (N_of_ascii c) <= 127 ->
  JS.strip_one ws (c :: l) = None.
Proof.
  intros Hws Hc. apply strip_one_no_match.
  revert Hws. apply forallb_weaken. intros [|a w] H; [discriminate |].
  apply negb_true_iff. unfold JS.ascii_eqb.
  destruct (Ascii.eqb_spec a c) as [-> |]; [| reflexivity].
  apply orb_true_iff in H as [H | H]; apply Z.ltb_lt in H; lia.
Qed.

Lemma digit_printable (c : ascii) :
  is_decimal_digit c = true -> 33 <= Z.of_N (N_of_ascii c) <= 127.
Proof.
  unfold is_decimal_digit. cbn zeta. intros H.
  apply andb_true_iff in H as [H1 H2].
  apply Z.leb_le in H1. apply Z.leb_le in H2. lia.
Qed.

(** Trimming leaves alone a string that starts and ends with a printable
    ASCII character. *)
Lemma trim_printable (c : ascii) (l : list ascii) (z : ascii) (r : list ascii) :
  33 <= Z.of_N (N_of_ascii c) <= 127 ->
  List.rev (c :: l) = z :: r ->
  33 <= Z.of_N (N_of_ascii z) <= 127 ->
  JS.trim (c :: l) = c :: l.
Proof.
  intros Hc Hrev Hz. unfold JS.trim. cbn zeta.
  rewrite (strip_ws_no_match _ _ (c :: l))
    by (apply strip_one_printable; [apply white_space_first_bytes | exact Hc]).
  rewrite Hrev.
  rewrite strip_ws_no_match
    by (apply strip_one_printable; [apply white_space_last_bytes | exact Hz]).
  rewrite <- Hrev. apply List.rev_involutive.
Qed.

Lemma forallb_rev {A : Type} (p : A -> bool) (l : list A) :
  List.forallb p l = true -> List.forallb p (List.rev l) = true.
Proof.
  induction l as [|x l IH]; cbn; [reflexivity |].
  intros H. apply andb_true_iff in H as [Hx Hl].
  rewrite List.forallb_app, (IH Hl). cbn. rewrite Hx. reflexivity.
Qed.

Lemma rev_cons_head {A : Type} (p : A -> bool) (c : A) (l : list A) :
  List.forallb p (c :: l) = true ->
  exists z r, List.rev (c :: l) = z :: r /\ p z = true.
Proof.
  intros H. apply forallb_rev in H.
  destruct (List.rev (c :: l)) as [|z r] eqn:E.
  - apply (f_equal (@List.length A)) in E.
    rewrite List.length_rev in E. discriminate.
  - cbn in H. apply andb_true_iff in H as [Hz _]. eauto.
Qed.

Lemma trim_digits (l : list ascii) :
  List.forallb is_decimal_digit l = true -> JS.trim l = l.
Proof.
  destruct l as [|c l]; [reflexivity |]. intros H.
  destruct (rev_cons_head _ _ _ H) as (z & r & Hrev & Hz).
  cbn in H. apply andb_true_iff in H as [Hc _].
  apply (trim_printable c l z r); auto using digit_printable.
Qed.

Lemma digit_in_decimal (c : ascii) :
  is_decimal_digit c = true ->
  JS.digit_in 10 c = Some (Z.of_N (N_of_ascii c) - 48).
Proof.
  unfold is_decimal_digit, JS.digit_in, JS.digit_value. cbn zeta.
  intros H. rewrite H.
  apply andb_true_iff in H as [H1 H2].
  apply Z.leb_le in H1. apply Z.leb_le in H2.
  destruct (Z.ltb_spec (Z.of_N (N_of_ascii c) - 48) 10); [reflexivity | lia].
Qed.

Lemma span_digits_all (l : list ascii) :
  List.forallb is_decimal_digit l = true ->
  JS.span_digits 10 l
  = (List.map (fun c => Z.of_N (N_of_ascii c) - 48) l, []).
Proof.
  induction l as [|c l IH]; cbn [JS.span_digits List.forallb List.map];
    [reflexivity |].
  intros H. apply andb_true_iff in H as [Hc Hl].
  rewrite (digit_in_decimal c Hc), (IH Hl). reflexivity.
Qed.

Lemma digits_value_nonneg (l : list ascii) :
  List.forallb is_decimal_digit l = true ->
  0 <= JS.digits_value 10
         (List.map (fun c => Z.of_N (N_of_ascii c) - 48) l).
Proof.
  unfold JS.digits_value.
  assert (Hgen : forall acc, 0 <= acc ->
            List.forallb is_decimal_digit l = true ->
            0 <= List.fold_left (fun a d => 10 * a + d)
                   (List.map (fun c => Z.of_N (N_of_ascii c) - 48) l) acc).
  { induction l as [|c l IH]; intros acc Hacc H; cbn; [exact Hacc |].
    cbn in H. apply andb_true_iff in H as [Hc Hl].
    apply IH; [| exact Hl].
    apply digit_printable in Hc as Hc'.
    unfold is_decimal_digit in Hc. cbn zeta in Hc.
    apply andb_true_iff in Hc as [H1 _]. apply Z.leb_le in H1. lia. }
  apply Hgen. lia.
Qed.

Lemma of_decimal_integer (m : Z) : 0 <= m -> JS.of_decimal m 0 = JS.lit m.
Proof. intros H. destruct m; [reflexivity | reflexivity | lia]. Qed.

(** An unsigned literal made of digits only is the integer it denotes. *)
Lemma parse_unsigned_decimal_digits (c : ascii) (l : list ascii) :
  List.forallb is_decimal_digit (c :: l) = true ->
  JS.parse_unsigned_decimal (c :: l)
  = Some (JS.lit (JS.digits_value 10
            (List.map (fun c => Z.of_N (N_of_ascii c) - 48) (c :: l)))).
Proof.
  intros H. unfold JS.parse_unsigned_decimal.
  assert (Hc : is_decimal_digit c = true)
    by (cbn in H; apply andb_true_iff in H; tauto).
  assert (HI : String.eqb (string_of_list_ascii (c :: l)) "Infinity" = false).
  { cbn. destruct (Ascii.eqb_spec c "I") as [-> |]; [discriminate | reflexivity]. }
  rewrite HI, (span_digits_all _ H). cbn [List.map].
  cbn [JS.parse_exponent List.length Z.of_nat Z.sub Z.opp Z.add].
  rewrite List.app_nil_r, of_decimal_integer; [reflexivity |].
  apply (digits_value_nonneg (c :: l) H).
Qed.

Lemma parse_non_decimal_digits (l : list ascii) :
  List.forallb is_decimal_digit l = true -> JS.parse_non_decimal l = None.
Proof.
  destruct l as [|z [|p l]]; try reflexivity.
  intros H. cbn in H.
  apply andb_true_iff in H as [_ H]. apply andb_true_iff in H as [Hp _].
  unfold JS.parse_non_decimal.
  destruct (JS.ascii_eqb z "0"); [| reflexivity].
  rewrite !(ascii_eqb_digit_l p) by (exact Hp || reflexivity).
  reflexivity.
Qed.

(** [Number] of a non-empty string of decimal digits is the integer the
    digits denote (rounded, if it needs more than 53 bits). *)
Lemma StringToNumber_digits (s : string) :
  decimal_digits s = true -> JS.StringToNumber s = JS.lit (decimal_value s).
Proof.
  unfold decimal_digits, decimal_value, JS.StringToNumber.
  destruct (list_ascii_of_string s) as [|c l]; [discriminate |].
  intros H. rewrite (trim_digits _ H), (parse_non_decimal_digits _ H).
  assert (Hc : is_decimal_digit c = true)
    by (cbn in H; apply andb_true_iff in H; tauto).
  unfold JS.parse_decimal.
  rewrite !(ascii_eqb_digit_l c) by (exact Hc || reflexivity).
  rewrite (parse_unsigned_decimal_digits c l H). reflexivity.
Qed.

(** [Number] of a minus sign before such digits is the opposite integer. *)
Lemma StringToNumber_minus_digits (s : string) :
  decimal_digits s = true ->
  JS.StringToNumber (String "-" s) = JS.neg (JS.lit (decimal_value s)).
Proof.
  unfold decimal_digits, decimal_value, JS.StringToNumber.
  cbn [list_ascii_of_string].
  destruct (list_ascii_of_string s) as [|c l]; [discriminate |].
  intros H.
  destruct (rev_cons_head _ _ _ H) as (z & r & Hrev & Hz).
  rewrite (trim_printable "-" (c :: l) z (r ++ ["-"%char]));
    [ | vm_compute; split; discriminate
      | cbn [List.rev] in *; rewrite Hrev; reflexivity
      | apply digit_printable, Hz ].
  cbn [JS.parse_non_decimal JS.parse_decimal].
  replace (JS.ascii_eqb "-" "0") with false by reflexivity.
  replace (JS.ascii_eqb "-" "-") with true by reflexivity.
  rewrite (parse_unsigned_decimal_digits c l H). reflexivity.
Qed.

End NumberFacts.

(** ** Further properties of [Config] *)

Module ConfigFacts.
Import NumberFacts.

(** Reduce the projection of a field out of the object literal. *)
Ltac project_field :=
  unfold Config;
  cbn [PORT NODE_ENV MONGO_URI JWT_ACCESS_TOKEN JWT_REFRESH_TOKEN
       JWT_ACCESS_EXPIRY JWT_REFRESH_EXPIRY EMAIL_HOST EMAIL_PORT EMAIL_USER
       EMAIL_PASS CLIENT_URL BCRYPT_SALT_ROUND RATE_LIMIT_WINDOW_MS
       RATE_LIMIT_MAX_REQUESTS].

(** Go through the entries of one of the field tables. *)
Ltac each_entry Hin tac :=
  cbn in Hin;
  repeat (destruct Hin as [Heq | Hin]; [inversion Heq; subst; clear Heq; tac |]);
  try contradiction.

Lemma numeric_field_spec
    (env : Env) (name : string) (field : ConfigObject -> JS.value) (dflt : Z) :
  In (name, field, dflt) numeric_fields ->
  field (Config env)
  = JS.Num match env !! name with
           | None => JS.lit dflt
           | Some s =>
               let n := JS.StringToNumber s in
               if is_nan n || is_zero n then JS.lit dflt else n
           end.
Proof.
  intros Hin. unfold numeric_fields in Hin.
  each_entry Hin ltac:(project_field; rewrite ?rate_limit_window_default;
                       apply number_or_spec).
Qed.

Lemma string_field_spec
    (env : Env) (name : string) (field : ConfigObject -> JS.value) (dflt : string) :
  In (name, field, dflt) string_fields ->
  field (Config env)
  = JS.Str match env !! name with
           | None => dflt
           | Some s => if String.eqb s "" then dflt else s
           end.
Proof.
  intros Hin. unfold string_fields in Hin.
  each_entry Hin ltac:(project_field; apply string_or_spec).
Qed.

Lemma cast_field_spec
    (env : Env) (name : string) (field : ConfigObject -> JS.value) :
  In (name, field) cast_fields ->
  field (Config env)
  = match env !! name with Some s => JS.Str s | None => JS.Undefined end.
Proof.
  intros Hin. unfold cast_fields in Hin.
  each_entry Hin ltac:(project_field; reflexivity).
Qed.

(** A field is computed from the one variable it is listed with. *)
Lemma field_reads_own_variable
    (env1 env2 : Env) (name : string) (field : ConfigObject -> JS.value) :
  In (name, field) config_fields ->
  env1 !! name = env2 !! name ->
  field (Config env1) = field (Config env2).
Proof.
  intros Hin H. unfold config_fields in Hin.
  each_entry Hin ltac:(project_field;
                       unfold number_or, string_or, as_string, process_env;
                       rewrite H; reflexivity).
Qed.

Lemma default_is_truthy (name : string) (field : ConfigObject -> JS.value) (dflt : Z) :
  In (name, field, dflt) numeric_fields ->
  is_nan (JS.lit dflt) = false /\ is_zero (JS.lit dflt) = false.
Proof.
  intros Hin. unfold numeric_fields in Hin.
  each_entry Hin ltac:(vm_compute; split; reflexivity).
Qed.

Lemma default_is_nonempty (name : string) (field : ConfigObject -> JS.value)
    (dflt : string) :
  In (name, field, dflt) string_fields -> dflt <> ""%string.
Proof.
  intros Hin. unfold string_fields in Hin.
  each_entry Hin ltac:(discriminate).
Qed.

(** X1: every numeric field ([PORT], [EMAIL_PORT], [BCRYPT_SALT_ROUND],
    [RATE_LIMIT_WINDOW_MS], [RATE_LIMIT_MAX_REQUESTS]) is, in every
    environment, a Number that is neither [NaN] nor zero: a variable that
    is missing, malformed or zero never reaches the field. *)
Theorem numeric_field_never_nan_or_zero
    (env : Env) (name : string) (field : ConfigObject -> JS.value) (dflt : Z) :
  In (name, field, dflt) numeric_fields ->
  exists n : JS.number,
    field (Config env) = JS.Num n /\ is_nan n = false /\ is_zero n = false.
Proof.
  intros Hin. rewrite (numeric_field_spec env name field dflt Hin).
  destruct (default_is_truthy name field dflt Hin) as [Hn Hz].
  eexists. split; [reflexivity |].
  destruct (env !! name) as [s|]; [| split; assumption].
  cbn zeta.
  destruct (is_nan (JS.StringToNumber s)) eqn:En; [split; assumption |].
  destruct (is_zero (JS.StringToNumber s)) eqn:Ez; [split; assumption |].
  split; assumption.
Qed.

Lemma numeric_field_never_nan_or_zero_example :
  exists n : JS.number,
    PORT (Config env_port_zero) = JS.Num n
    /\ is_nan n = false /\ is_zero n = false.
Proof.
  apply (numeric_field_never_nan_or_zero env_port_zero "PORT" PORT 3000).
  unfold numeric_fields. left. reflexivity.
Defined.

(** X2: every field written [process.env.NAME || "default"] ([NODE_ENV],
    [JWT_ACCESS_EXPIRY], [JWT_REFRESH_EXPIRY], [CLIENT_URL]) is, in every
    environment, a non-empty string: the default (["development"],
    ["15m"], ["7d"], ["http://localhost:5173"]) when the variable is unset
    or empty, and the variable's value otherwise. *)
Theorem string_field_default_or_value
    (env : Env) (name : string) (field : ConfigObject -> JS.value) (dflt : string) :
  In (name, field, dflt) string_fields ->
  exists s : string,
    field (Config env) = JS.Str s
    /\ s <> ""%string
    /\ ((env !! name = None \/ env !! name = Some ""%string) -> s = dflt)
    /\ (forall v : string, env !! name = Some v -> v <> ""%string -> s = v).
Proof.
  intros Hin. rewrite (string_field_spec env name field dflt Hin).
  pose proof (default_is_nonempty name field dflt Hin) as Hd.
  eexists. split; [reflexivity |].
  destruct (env !! name) as [[|c v]|]; cbn.
  - split; [exact Hd |]. split; [reflexivity |]. intros v [= <-]. congruence.
  - split; [discriminate |]. split.
    + intros [H | H]; discriminate.
    + intros v' [= <-] _. reflexivity.
  - split; [exact Hd |]. split; [reflexivity |]. intros v H. discriminate.
Qed.

Lemma string_field_default_or_value_example :
  exists s : string,
    NODE_ENV (Config env_production) = JS.Str s
    /\ s <> ""%string
    /\ ((env_production !! "NODE_ENV" = None
         \/ env_production !! "NODE_ENV" = Some ""%string) -> s = "development"%string)
    /\ (forall v : string, env_production !! "NODE_ENV" = Some v ->
        v <> ""%string -> s = v).
Proof.
  apply (string_field_default_or_value env_production
           "NODE_ENV" NODE_ENV "development").
  unfold string_fields. left. reflexivity.
Defined.

Example NODE_ENV_production :
  NODE_ENV (Config env_production) = JS.Str "production"
  /\ NODE_ENV (Config ∅) = JS.Str "development"
  /\ CLIENT_URL (Config env_production) = JS.Str "http://localhost:5173".
Proof. vm_compute. repeat split. Qed.

(** X3: a field changes only with its own variable: setting any other
    variable, to any value, or removing it, leaves the field as it was. *)
Theorem field_unaffected_by_other_variable
    (env : Env) (name other value : string) (field : ConfigObject -> JS.value) :
  In (name, field) config_fields ->
  other <> name ->
  field (Config (<[other := value]> env)) = field (Config env)
  /\ field (Config (delete other env)) = field (Config env).
Proof.
  intros Hin Hne. split; apply (field_reads_own_variable _ _ name); try exact Hin.
  - apply lookup_insert_ne. exact Hne.
  - apply lookup_delete_ne. exact Hne.
Qed.

Lemma field_unaffected_by_other_variable_example :
  PORT (Config (<["EMAIL_PORT" := "2525"]> env_production))
  = PORT (Config env_production)
  /\ PORT (Config (delete "EMAIL_PORT" env_production))
     = PORT (Config env_production).
Proof.
  apply (field_unaffected_by_other_variable env_production
           "PORT" "EMAIL_PORT" "2525" PORT).
  - unfold config_fields. left. reflexivity.
  - discriminate.
Defined.

(** X5: when the variable of a numeric field is a non-empty string of
    decimal digits (leading zeros allowed) denoting an integer below
    [2 ^ 53], the field is exactly that integer, a finite Number; except
    that digits denoting zero give the default. *)
Theorem numeric_field_decimal_integer
    (env : Env) (name s : string) (field : ConfigObject -> JS.value) (dflt : Z) :
  In (name, field, dflt) numeric_fields ->
  env !! name = Some s ->
  decimal_digits s = true ->
  decimal_value s < 2 ^ 53 ->
  (decimal_value s = 0 -> field (Config env) = JS.Num (JS.lit dflt))
  /\ (decimal_value s <> 0 ->
      field (Config env) = JS.Num (JS.lit (decimal_value s))
      /\ exists (m : positive) (e : Z),
           JS.lit (decimal_value s) = S754_finite false m e).
Proof.
  intros Hin Hs Hd Hlt.
  rewrite (numeric_field_spec env name field dflt Hin), Hs.
  cbn zeta. rewrite (StringToNumber_digits s Hd).
  assert (Hnn : 0 <= decimal_value s).
  { unfold decimal_value, decimal_digits in *.
    destruct (list_ascii_of_string s) as [|c l]; [discriminate |].
    apply digits_value_nonneg. exact Hd. }
  split.
  - intros ->. reflexivity.
  - intros Hne.
    destruct (lit_finite (decimal_value s) ltac:(lia)) as (m & e & Hlit).
    rewrite Hlit. split; [reflexivity | eauto].
Qed.

Lemma numeric_field_decimal_integer_example :
  (decimal_value "8080" = 0 ->
   PORT (Config env_production) = JS.Num (JS.lit 3000))
  /\ (decimal_value "8080" <> 0 ->
      PORT (Config env_production) = JS.Num (JS.lit (decimal_value "8080"))
      /\ exists (m : positive) (e : Z),
           JS.lit (decimal_value "8080") = S754_finite false m e).
Proof.
  apply (numeric_field_decimal_integer env_production "PORT" "8080" PORT 3000).
  - unfold numeric_fields. left. reflexivity.
  - reflexivity.
  - reflexivity.
  - reflexivity.
Defined.

Example decimal_value_8080 :
  decimal_value "8080" = 8080 /\ decimal_value "0080" = 80
  /\ decimal_digits "8080" = true /\ decimal_digits "" = false
  /\ decimal_digits "80a" = false /\ decimal_digits "-5" = false.
Proof. vm_compute. repeat split. Qed.

(** X6: writing a default into the environment changes nothing: for each
    defaulted variable that is unset, [Config] with the variable set to the
    text of its default (["3000"], ["development"], ["15m"], ["7d"],
    ["587"], ["http://localhost:5173"], ["12"], ["900000"], ["100"]) is the
    [Config] of the environment without it. *)
Theorem explicit_default_changes_nothing (env : Env) (name text : string) :
  In (name, text) default_strings ->
  env !! name = None ->
  Config (<[name := text]> env) = Config env.
Proof.
  intros Hin Hnone. unfold default_strings in Hin.
  each_entry Hin ltac:(
    unfold Config, number_or, string_or, as_string, process_env;
    rewrite ?lookup_insert_eq; rewrite ?lookup_insert_ne by discriminate;
    rewrite ?Hnone; f_equal; vm_compute; reflexivity).
Qed.

Lemma explicit_default_changes_nothing_example :
  Config (<["RATE_LIMIT_WINDOW_MS" := "900000"]> env_production)
  = Config env_production.
Proof.
  apply (explicit_default_changes_nothing env_production
           "RATE_LIMIT_WINDOW_MS" "900000").
  - unfold default_strings. do 7 right. left. reflexivity.
  - reflexivity.
Defined.

(** X7: the six fields read with [as string] ([MONGO_URI],
    [JWT_ACCESS_TOKEN], [JWT_REFRESH_TOKEN], [EMAIL_HOST], [EMAIL_USER],
    [EMAIL_PASS]) never take a default: a set variable is passed through as
    it is, the empty string included, and the field is [undefined] exactly
    when the variable is absent; so the field is truthy exactly when the
    variable is set to a non-empty string. *)
Theorem cast_field_passes_through
    (env : Env) (name : string) (field : ConfigObject -> JS.value) :
  In (name, field) cast_fields ->
  (forall s : string, env !! name = Some s -> field (Config env) = JS.Str s)
  /\ (field (Config env) = JS.Undefined <-> env !! name = None)
  /\ (JS.ToBoolean (field (Config env)) = true
      <-> exists s : string, env !! name = Some s /\ s <> ""%string).
Proof.
  intros Hin. rewrite (cast_field_spec env name field Hin).
  destruct (env !! name) as [[|c s]|]; cbn.
  - split; [intros s [= <-]; reflexivity |].
    split; [split; discriminate |].
    split; [discriminate | intros (s & [= <-] & H); congruence].
  - split; [intros s' [= <-]; reflexivity |].
    split; [split; discriminate |].
    split; [intros _; eexists; split; [reflexivity | discriminate] | reflexivity].
  - split; [intros s H; discriminate |].
    split; [split; reflexivity |].
    split; [discriminate | intros (s & H & _); discriminate].
Qed.

Lemma cast_field_passes_through_example :
  (forall s : string, env_shared_secret !! "JWT_ACCESS_TOKEN" = Some s ->
     JWT_ACCESS_TOKEN (Config env_shared_secret) = JS.Str s)
  /\ (JWT_ACCESS_TOKEN (Config env_shared_secret) = JS.Undefined
      <-> env_shared_secret !! "JWT_ACCESS_TOKEN" = None)
  /\ (JS.ToBoolean (JWT_ACCESS_TOKEN (Config env_shared_secret)) = true
      <-> exists s : string,
            env_shared_secret !! "JWT_ACCESS_TOKEN" = Some s /\ s <> ""%string).
Proof.
  apply (cast_field_passes_through env_shared_secret
           "JWT_ACCESS_TOKEN" JWT_ACCESS_TOKEN).
  unfold cast_fields. right. left. reflexivity.
Defined.

(** X8: a numeric field has no lower bound: when its variable is a minus
    sign followed by decimal digits denoting a non-zero integer below
    [2 ^ 53], the field is the opposite of that integer, a Number below
    zero. *)
Theorem numeric_field_negative_integer
    (env : Env) (name s : string) (field : ConfigObject -> JS.value) (dflt : Z) :
  In (name, field, dflt) numeric_fields ->
  env !! name = Some (String "-" s) ->
  decimal_digits s = true ->
  0 < decimal_value s < 2 ^ 53 ->
  field (Config env) = JS.Num (JS.neg (JS.lit (decimal_value s)))
  /\ JS.ltb (JS.neg (JS.lit (decimal_value s))) (JS.lit 0) = true.
Proof.
  intros Hin Hs Hd Hv.
  rewrite (numeric_field_spec env name field dflt Hin), Hs.
  cbn zeta. rewrite (StringToNumber_minus_digits s Hd).
  destruct (neg_lit_negative (decimal_value s) Hv) as (-> & -> & Hlt).
  split; [reflexivity | exact Hlt].
Qed.

Lemma numeric_field_negative_integer_example :
  PORT (Config env_port_negative) = JS.Num (JS.neg (JS.lit (decimal_value "5")))
  /\ JS.ltb (JS.neg (JS.lit (decimal_value "5"))) (JS.lit 0) = true.
Proof.
  apply (numeric_field_negative_integer env_port_negative "PORT" "5" PORT 3000).
  - unfold numeric_fields. left. reflexivity.
  - reflexivity.
  - reflexivity.
  - split; reflexivity.
Defined.

End ConfigFacts.

(** ** White space around a numeric variable *)

Module WhiteSpaceFacts.
Import NumberFacts ConfigFacts.

Section Stripping.

Variable patterns : list (list ascii).
Hypothesis patterns_nonempty :
  List.forallb (fun p => match p with [] => false | _ => true end) patterns = true.

Lemma strip_prefix_length (p l r : list ascii) :
  JS.strip_prefix p l = Some r ->
  List.length l = (List.length p + List.length r)%nat.
Proof.
  revert l. induction p as [|a p IH]; intros l H; cbn in H.
  - injection H as ->. reflexivity.
  - destruct l as [|b l]; [discriminate |].
    destruct (JS.ascii_eqb a b); [| discriminate].
    cbn. rewrite (IH l H). reflexivity.
Qed.

Lemma strip_one_shorter (l r : list ascii) :
  JS.strip_one patterns l = Some r -> (List.length r < List.length l)%nat.
Proof.
  revert patterns_nonempty. unfold JS.strip_one.
  induction patterns as [|p ps IH]; cbn; [discriminate |].
  intros Hne H. apply andb_true_iff in Hne as [Hp Hps].
  destruct (JS.strip_prefix p l) as [r'|] eqn:E.
  - injection H as <-. apply strip_prefix_length in E.
    destruct p; [discriminate |]. cbn in E. lia.
  - apply IH; assumption.
Qed.

(** Enough fuel is as good as more. *)
Lemma strip_ws_fuel (n m : nat) (l : list ascii) :
  (List.length l <= n)%nat -> (List.length l <= m)%nat ->
  JS.strip_ws n patterns l = JS.strip_ws m patterns l.
Proof.
  revert m l. induction n as [|n IH]; intros m l Hn Hm.
  - destruct l; [| cbn in Hn; lia].
    destruct m; cbn; [reflexivity |].
    destruct (JS.strip_one patterns []) as [r|] eqn:E; [| reflexivity].
    apply strip_one_shorter in E. cbn in E. lia.
  - destruct m as [|m].
    + destruct l; [| cbn in Hm; lia]. cbn.
      destruct (JS.strip_one patterns []) as [r|] eqn:E; [| reflexivity].
      apply strip_one_shorter in E. cbn in E. lia.
    + cbn. destruct (JS.strip_one patterns l) as [r|] eqn:E; [| reflexivity].
      apply strip_one_shorter in E. apply IH; lia.
Qed.

End Stripping.

Lemma white_space_nonempty :
  List.forallb (fun p => match p with [] => false | _ => true end)
               JS.StrWhiteSpaceChar = true.
Proof. vm_compute. reflexivity. Qed.

Lemma white_space_rev_nonempty :
  List.forallb (fun p => match p with [] => false | _ => true end)
               (List.map (@List.rev ascii) JS.StrWhiteSpaceChar) = true.
Proof. vm_compute. reflexivity. Qed.

(** Each white space character is one byte that is no continuation byte,
    followed by continuation bytes only. *)
Lemma white_space_shape :
  List.forallb (fun p => match p with
                         | [] => false
                         | a :: p' => negb (continuation a)
                                      && List.forallb continuation p'
                         end) JS.StrWhiteSpaceChar = true.
Proof. vm_compute. reflexivity. Qed.

(** A white space character at the head of a string is the one that is
    stripped. *)
Lemma strip_one_self (w l : list ascii) :
  In w JS.StrWhiteSpaceChar ->
  JS.strip_one JS.StrWhiteSpaceChar (w ++ l) = Some l.
Proof.
  intros Hin. vm_compute in Hin.
  repeat (destruct Hin as [<- | Hin]; [vm_compute; reflexivity |]).
  contradiction.
Qed.

Lemma strip_one_rev_self (w l : list ascii) :
  In w JS.StrWhiteSpaceChar ->
  JS.strip_one (List.map (@List.rev ascii) JS.StrWhiteSpaceChar)
               (List.rev w ++ l) = Some l.
Proof.
  intros Hin. vm_compute in Hin.
  repeat (destruct Hin as [<- | Hin]; [vm_compute; reflexivity |]).
  contradiction.
Qed.

Section Appending.

Variable patterns : list (list ascii).
Hypothesis patterns_shape :
  List.forallb (fun p => match p with
                         | [] => false
                         | a :: p' => negb (continuation a)
                                      && List.forallb continuation p'
                         end) patterns = true.

(** What is appended: a string that starts with no continuation byte. *)
Variable c : ascii.
Variable w : list ascii.
Hypothesis c_starts : continuation c = false.

Lemma strip_prefix_app (p l r : list ascii) :
  JS.strip_prefix p l = Some r ->
  JS.strip_prefix p (l ++ c :: w) = Some (r ++ c :: w).
Proof.
  revert l. induction p as [|a p IH]; intros l H; cbn in H.
  - injection H as ->. reflexivity.
  - destruct l as [|b l]; [discriminate |]. cbn.
    destruct (JS.ascii_eqb a b); [apply IH; exact H | discriminate].
Qed.

Lemma strip_prefix_tail_none (p l : list ascii) :
  List.forallb continuation p = true ->
  JS.strip_prefix p l = None ->
  JS.strip_prefix p (l ++ c :: w) = None.
Proof.
  revert l. induction p as [|a p IH]; intros l Hp H; cbn in H; [discriminate |].
  cbn in Hp. apply andb_true_iff in Hp as [Ha Hp].
  destruct l as [|b l]; cbn.
  - unfold JS.ascii_eqb. destruct (Ascii.eqb_spec a c) as [-> |]; [congruence | reflexivity].
  - destruct (JS.ascii_eqb a b); [apply IH; assumption | reflexivity].
Qed.

Lemma strip_prefix_app_none (p : list ascii) (b : ascii) (l : list ascii) :
  match p with
  | [] => false
  | a :: p' => negb (continuation a) && List.forallb continuation p'
  end = true ->
  JS.strip_prefix p (b :: l) = None ->
  JS.strip_prefix p ((b :: l) ++ c :: w) = None.
Proof.
  destruct p as [|a p]; [discriminate |].
  intros Hp H. apply andb_true_iff in Hp as [_ Hp]. cbn in *.
  destruct (JS.ascii_eqb a b); [| reflexivity].
  apply strip_prefix_tail_none; assumption.
Qed.

Lemma strip_one_app (b : ascii) (l : list ascii) :
  JS.strip_one patterns ((b :: l) ++ c :: w)
  = option_map (fun r => r ++ c :: w) (JS.strip_one patterns (b :: l)).
Proof.
  revert patterns_shape. unfold JS.strip_one.
  induction patterns as [|p ps IH]; cbn [List.fold_right List.forallb];
    [reflexivity |].
  intros H. apply andb_true_iff in H as [Hp Hps].
  destruct (JS.strip_prefix p (b :: l)) as [r|] eqn:E.
  - rewrite (strip_prefix_app _ _ _ E). reflexivity.
  - rewrite (strip_prefix_app_none p b l Hp E). apply IH, Hps.
Qed.

End Appending.

Lemma white_space_head (x : list ascii) :
  In x JS.StrWhiteSpaceChar ->
  exists c w, x = c :: w /\ continuation c = false.
Proof.
  intros Hin. pose proof white_space_shape as H.
  rewrite List.forallb_forall in H. specialize (H x Hin).
  destruct x as [|c w]; [discriminate |].
  apply andb_true_iff in H as [H _]. apply negb_true_iff in H. eauto.
Qed.

Lemma strip_ws_nil (n : nat) : JS.strip_ws n JS.StrWhiteSpaceChar [] = [].
Proof. destruct n; reflexivity. Qed.

(** Stripping the head of a string that ends with one more white space
    character. *)
Lemma strip_ws_app (x : list ascii) :
  In x JS.StrWhiteSpaceChar ->
  forall (k : nat) (l : list ascii) (n : nat),
    (List.length l <= k)%nat ->
    (List.length l + List.length x <= n)%nat ->
    JS.strip_ws n JS.StrWhiteSpaceChar (l ++ x)
    = match JS.strip_ws k JS.StrWhiteSpaceChar l with
      | [] => []
      | l' => l' ++ x
      end.
Proof.
  intros Hin.
  destruct (white_space_head x Hin) as (c & w & -> & Hc).
  assert (Hnil : forall n k, (1 <= n)%nat ->
            JS.strip_ws n JS.StrWhiteSpaceChar ([] ++ c :: w)
            = match JS.strip_ws k JS.StrWhiteSpaceChar [] with
              | [] => []
              | l' => l' ++ c :: w
              end).
  { intros n k Hn. rewrite strip_ws_nil. destruct n as [|n]; [lia |].
    cbn [JS.strip_ws app].
    rewrite <- (List.app_nil_r (c :: w)), (strip_one_self _ [] Hin).
    apply strip_ws_nil. }
  induction k as [|k IH]; intros l n Hk Hn.
  - destruct l; [| cbn in Hk; lia]. apply Hnil. cbn in Hn. lia.
  - destruct l as [|b l]; [apply Hnil; cbn in Hn; lia |].
    destruct n as [|n]; [cbn in Hn; lia |].
    cbn [JS.strip_ws].
    rewrite (strip_one_app _ white_space_shape c w Hc b l).
    destruct (JS.strip_one JS.StrWhiteSpaceChar (b :: l)) as [r|] eqn:E;
      cbn [option_map]; [| reflexivity].
    apply (strip_one_shorter _ white_space_nonempty) in E.
    apply IH; cbn in *; lia.
Qed.

(** [trim] ignores one more white space character at the head ... *)
Lemma trim_leading (x l : list ascii) :
  In x JS.StrWhiteSpaceChar -> JS.trim (x ++ l) = JS.trim l.
Proof.
  intros Hin. unfold JS.trim. cbn zeta.
  assert (H : JS.strip_ws (List.length (x ++ l)) JS.StrWhiteSpaceChar (x ++ l)
              = JS.strip_ws (List.length l) JS.StrWhiteSpaceChar l).
  { destruct (white_space_head x Hin) as (c & w & Hx & _).
    rewrite List.length_app. rewrite Hx at 1.
    cbn [List.length Nat.add JS.strip_ws].
    rewrite (strip_one_self x l Hin).
    apply (strip_ws_fuel _ white_space_nonempty); lia. }
  rewrite H. reflexivity.
Qed.

(** ... and at the end. *)
Lemma trim_trailing (x l : list ascii) :
  In x JS.StrWhiteSpaceChar -> JS.trim (l ++ x) = JS.trim l.
Proof.
  intros Hin. unfold JS.trim. cbn zeta.
  rewrite (strip_ws_app x Hin (List.length l) l (List.length (l ++ x)))
    by (rewrite ?List.length_app; lia).
  destruct (JS.strip_ws (List.length l) JS.StrWhiteSpaceChar l) as [|b l'];
    [reflexivity |].
  f_equal. rewrite List.rev_app_distr.
  destruct (white_space_head x Hin) as (c & w & Hx & _).
  assert (Hlen : List.length (List.rev x ++ List.rev (b :: l'))
                 = S (List.length w + List.length (List.rev (b :: l')))).
  { rewrite List.length_app, List.length_rev, Hx. reflexivity. }
  rewrite Hlen. cbn [JS.strip_ws].
  rewrite (strip_one_rev_self x _ Hin).
  apply (strip_ws_fuel _ white_space_rev_nonempty); lia.
Qed.

Lemma list_ascii_of_string_append (a b : string) :
  list_ascii_of_string (String.append a b)
  = list_ascii_of_string a ++ list_ascii_of_string b.
Proof.
  induction a as [|x a IH]; [reflexivity |].
  change (list_ascii_of_string (String x (String.append a b))
          = (x :: list_ascii_of_string a) ++ list_ascii_of_string b).
  cbn [list_ascii_of_string app]. f_equal. exact IH.
Qed.

Lemma white_space_In (pad : string) :
  white_space pad = true -> In (list_ascii_of_string pad) JS.StrWhiteSpaceChar.
Proof.
  unfold white_space. intros H. apply List.existsb_exists in H as (x & Hin & Hx).
  apply String.eqb_eq in Hx. subst pad.
  rewrite list_ascii_of_string_of_list_ascii. exact Hin.
Qed.

(** [Number] ignores a white space character before or after the text. *)
Lemma StringToNumber_pad (pad s : string) :
  white_space pad = true ->
  JS.StringToNumber (String.append pad s) = JS.StringToNumber s
  /\ JS.StringToNumber (String.append s pad) = JS.StringToNumber s.
Proof.
  intros H. apply white_space_In in H. unfold JS.StringToNumber. split.
  - rewrite list_ascii_of_string_append, trim_leading by exact H. reflexivity.
  - rewrite list_ascii_of_string_append, trim_trailing by exact H. reflexivity.
Qed.

(** X9: a numeric field does not see white space around the text of its
    variable: one more white space character (a blank, a tab, a carriage
    return or line feed, U+00A0, ...) before or after the value gives the
    same field. *)
Theorem numeric_field_ignores_white_space
    (env : Env) (name value pad : string)
    (field : ConfigObject -> JS.value) (dflt : Z) :
  In (name, field, dflt) numeric_fields ->
  white_space pad = true ->
  field (Config (<[name := String.append pad value]> env))
  = field (Config (<[name := value]> env))
  /\ field (Config (<[name := String.append value pad]> env))
     = field (Config (<[name := value]> env)).
Proof.
  intros Hin Hpad.
  rewrite !(numeric_field_spec _ name field dflt Hin), !lookup_insert_eq.
  cbn zeta.
  destruct (StringToNumber_pad pad value Hpad) as [-> ->].
  split; reflexivity.
Qed.

Lemma numeric_field_ignores_white_space_example :
  PORT (Config (<["PORT" := String.append (String "013" "") "8080"]> ∅))
  = PORT (Config (<["PORT" := "8080"]> ∅))
  /\ PORT (Config (<["PORT" := String.append "8080" (String "013" "")]> ∅))
     = PORT (Config (<["PORT" := "8080"]> ∅)).
Proof.
  apply (numeric_field_ignores_white_space ∅ "PORT" "8080" (String "013" "")
           PORT 3000).
  - unfold numeric_fields. left. reflexivity.
  - reflexivity.
Defined.

End WhiteSpaceFacts.
